(** * Git MCP server: validators and tool dispatcher

    A shallow embedding of the validation-inclusive server
    (validatePath, validateBranchName, validateCommitMessage,
    createGitInstance and executeTool) together with the properties of its
    request-dispatch and input-validation layer.

    Conventions of the embedding.
    - A JavaScript string is a [string]; each [ascii] stands for one code
      unit below 256.  Every character the source tests for is in that range.
    - Argument values are the JSON values a caller can put in an argument
      bag: absent/undefined, null, booleans, integer numbers, strings and
      arrays of those.  Object-valued arguments are not modelled.  A number
      is rendered in decimal, as JavaScript renders an integer of magnitude
      below 10^21; no property below states the text of a number a caller
      supplies as a remote or a branch.
    - The argument bag is a finite map from property names to values; a
      property that is absent reads as undefined, as destructuring does.
    - The version-control engine (simple-git) is external.  It is a
      parameter: a repository state type and a function giving, for every
      primitive call, its outcome and the next repository state.  The
      dispatcher runs in a state-and-exception monad over the repository
      state and the journal of primitive calls made so far; an [await] of a
      rejected promise is a throw. *)

From Stdlib Require Import ZArith String Ascii List DecimalString Lia.
From stdpp Require Import base option list strings gmap.

Open Scope string_scope.

(** ** JavaScript values *)

#[warnings="-register-all"]
Inductive JsValue : Type :=
| JUndefined : JsValue
| JNull : JsValue
| JBool (b : bool) : JsValue
| JNum (n : Z) : JsValue
| JStr (s : string) : JsValue
| JArr (items : list JsValue) : JsValue.

(** ToBoolean: what [if (v)], [!v], [v ? a : b] and [v || d] test. *)
Definition truthy (v : JsValue) : bool :=
  match v with
  | JUndefined | JNull => false
  | JBool b => b
  | JNum n => negb (n =? 0)%Z
  | JStr s => negb (String.eqb s "")
  | JArr _ => true
  end.

(** [typeof v === 'string'] *)
Definition isString (v : JsValue) : bool :=
  match v with JStr _ => true | _ => false end.

(** [sep.join] on already rendered items. *)
Fixpoint joinWith (sep : string) (parts : list string) : string :=
  match parts with
  | [] => ""
  | [p] => p
  | p :: rest => p +:+ sep +:+ joinWith sep rest
  end.

(** ToString, as template literals and [String(v)] apply it.  An array
    renders as its elements joined by commas, null and undefined elements
    as the empty string. *)
Fixpoint toString (v : JsValue) : string :=
  match v with
  | JUndefined => "undefined"
  | JNull => "null"
  | JBool true => "true"
  | JBool false => "false"
  | JNum n => NilZero.string_of_int (Z.to_int n)
  | JStr s => s
  | JArr items =>
      joinWith ","
        (map (fun e => match e with
                       | JUndefined | JNull => ""
                       | _ => toString e
                       end) items)
  end.

(** ** String primitives used by the source *)

(** [s.startsWith(p)] *)
Fixpoint startsWith (s p : string) {struct p} : bool :=
  match p with
  | EmptyString => true
  | String c p' =>
      match s with
      | EmptyString => false
      | String d s' => Ascii.eqb c d && startsWith s' p'
      end
  end.

(** [s.includes(p)] *)
Fixpoint includes (s p : string) : bool :=
  startsWith s p ||
  match s with
  | EmptyString => false
  | String _ s' => includes s' p
  end.

(** A regular-expression character class [[...]] searched anywhere in [s]. *)
Fixpoint matchesClass (cls : list ascii) (s : string) : bool :=
  match s with
  | EmptyString => false
  | String c s' => existsb (Ascii.eqb c) cls || matchesClass cls s'
  end.

Definition backslash : ascii := ascii_of_nat 92.
Definition backslashStr : string := String backslash EmptyString.

(** The class [[<>|&;$`]]. *)
Definition dangerousClass : list ascii :=
  ["<"; ">"; "|"; "&"; ";"; "$"; "`"]%char.

(** The class [[<>|&;$`\\]]. *)
Definition dangerousClassBackslash : list ascii :=
  (dangerousClass ++ [backslash])%list.

(** White space and line terminators that [trim] strips, among the code
    units below 256: TAB, LF, VT, FF, CR, SP and NBSP. *)
Definition isWhiteSpace (c : ascii) : bool :=
  existsb (Nat.eqb (nat_of_ascii c)) [9; 10; 11; 12; 13; 32; 160].

Fixpoint trimStart (s : string) : string :=
  match s with
  | EmptyString => EmptyString
  | String c s' => if isWhiteSpace c then trimStart s' else s
  end.

Fixpoint trimEnd (s : string) : string :=
  match s with
  | EmptyString => EmptyString
  | String c s' =>
      match trimEnd s' with
      | EmptyString => if isWhiteSpace c then EmptyString else String c EmptyString
      | t => String c t
      end
  end.

(** [s.trim()] *)
Definition trim (s : string) : string := trimEnd (trimStart s).

(** [s.split(sep)] for a one-character separator; never the empty list. *)
Fixpoint split (sep : ascii) (s : string) : list string :=
  match s with
  | EmptyString => [EmptyString]
  | String c s' =>
      if Ascii.eqb c sep then EmptyString :: split sep s'
      else match split sep s' with
           | seg :: rest => String c seg :: rest
           | [] => [String c EmptyString]
           end
  end.

(** [arr.pop()] read as a value: the last element, undefined when empty. *)
Definition pop (segs : list string) : JsValue :=
  match List.last (map Some segs) None with
  | Some seg => JStr seg
  | None => JUndefined
  end.

(** ** Exceptions *)

(** What a [throw] carries: an [Error] object with its message, or any
    other value. *)
Inductive Thrown : Type :=
| ErrorObj (message : string) : Thrown
| Raw (v : JsValue) : Thrown.

Inductive Completion (A : Type) : Type :=
| Normal (a : A) : Completion A
| Throw (t : Thrown) : Completion A.
Arguments Normal {A} a.
Arguments Throw {A} t.

(** ** Validators *)

Definition validatePath (path : JsValue) : Completion string :=
  if negb (truthy path) || negb (isString path) then
    Throw (ErrorObj "Path must be a non-empty string")
  else
    let s := toString path in
    if includes s ".." || startsWith s "/" || includes s backslashStr then
      Throw (ErrorObj "Invalid path: path traversal not allowed")
    else if startsWith s "/" || matchesClass dangerousClass s then
      Throw (ErrorObj "Invalid path: dangerous characters not allowed")
    else Normal s.

Definition validateBranchName (branchName : JsValue) : Completion string :=
  if negb (truthy branchName) || negb (isString branchName) then
    Throw (ErrorObj "Branch name must be a non-empty string")
  else
    let s := toString branchName in
    if matchesClass dangerousClassBackslash s || includes s ".." then
      Throw (ErrorObj "Invalid branch name: dangerous characters not allowed")
    else if (String.length (trim s) =? 0)%nat then
      Throw (ErrorObj "Branch name cannot be empty or whitespace-only")
    else Normal (trim s).

Definition validateCommitMessage (message : JsValue) : Completion string :=
  if negb (truthy message) || negb (isString message) then
    Throw (ErrorObj "Commit message must be a non-empty string")
  else
    let s := toString message in
    if matchesClass dangerousClassBackslash s then
      Throw (ErrorObj "Invalid commit message: dangerous characters not allowed")
    else Normal s.

(** ** The version-control engine *)

(** The primitives of the repository handle that the dispatcher calls, with
    the arguments it passes. *)
Inductive GitCall : Type :=
| status : GitCall
| checkoutBranch (branchName fromBranch : string) : GitCall
| checkoutLocalBranch (branchName : string) : GitCall
| checkout (branchName : string) : GitCall
| branch : GitCall
| raw (commands : list string) : GitCall
| merge (options : list string) : GitCall
| add (files : JsValue) : GitCall
| commit (message : string) : GitCall
| push (arguments : list JsValue) : GitCall
| pull (arguments : list JsValue) : GitCall.

(** How an awaited primitive settles.  The payload of a resolved call is
    what the dispatcher prints of it: the pretty-printed JSON of a status
    or branch summary, the raw output text, the [commit] field of a commit
    result. *)
Inductive Outcome : Type :=
| Resolved (payload : string) : Outcome
| Rejected (reason : Thrown) : Outcome.

Record Engine (Repo : Type) : Type := {
  REPO_PATH : string;
  (** [simpleGit(REPO_PATH)]: [Some t] when binding the handle throws [t]. *)
  simpleGit : option Thrown;
  (** one primitive call on the bound handle *)
  run : GitCall -> Repo -> Outcome * Repo
}.
Arguments REPO_PATH {Repo} e.
Arguments simpleGit {Repo} e.
Arguments run {Repo} e c r.

(** ** Invocation results *)

Record ContentItem : Type := { type : string; text : string }.

(** [isError] is present (and true) on failures only. *)
Record ToolResult : Type := { content : list ContentItem; isError : bool }.

Definition success (t : string) : ToolResult :=
  {| content := [ {| type := "text"; text := t |} ]; isError := false |}.

Definition failure (t : string) : ToolResult :=
  {| content := [ {| type := "text"; text := t |} ]; isError := true |}.

(** ** The dispatcher *)

Section Dispatcher.

Context {Repo : Type} (git : Engine Repo).

(** Machine state: the repository and the journal of primitive calls, oldest
    first. *)
Definition State : Type := Repo * list GitCall.

Definition M (A : Type) : Type := State -> Completion A * State.

Definition ret {A : Type} (a : A) : M A := fun st => (Normal a, st).

Definition throw {A : Type} (t : Thrown) : M A := fun st => (Throw t, st).

Definition bind {A B : Type} (m : M A) (k : A -> M B) : M B :=
  fun st =>
    match m st with
    | (Normal a, st') => k a st'
    | (Throw t, st') => (Throw t, st')
    end.

(** [try { body } catch (error) { handler }] *)
Definition tryCatch {A : Type} (body : M A) (handler : Thrown -> M A) : M A :=
  fun st =>
    match body st with
    | (Normal a, st') => (Normal a, st')
    | (Throw t, st') => handler t st'
    end.

(** A synchronous call that may throw. *)
Definition lift {A : Type} (c : Completion A) : M A := fun st => (c, st).

(** [await git.<primitive>(...)] *)
Definition await (c : GitCall) : M string :=
  fun '(repo, journal) =>
    match run git c repo with
    | (Resolved payload, repo') => (Normal payload, (repo', (journal ++ [c])%list))
    | (Rejected t, repo') => (Throw t, (repo', (journal ++ [c])%list))
    end.

Notation "x <- m ;; k" := (bind m (fun x => k))
  (at level 100, m at next level, right associativity).
Notation "m ;;; k" := (bind m (fun _ => k))
  (at level 100, right associativity).

(** [error.message] read off a caught value: a property read on null or
    undefined is a TypeError, on any other non-Error value it is
    undefined. *)
Definition messageProperty (t : Thrown) : Completion JsValue :=
  match t with
  | ErrorObj m => Normal (JStr m)
  | Raw JUndefined =>
      Throw (ErrorObj "Cannot read properties of undefined (reading 'message')")
  | Raw JNull =>
      Throw (ErrorObj "Cannot read properties of null (reading 'message')")
  | Raw _ => Normal JUndefined
  end.

Definition createGitInstance : M unit :=
  match simpleGit git with
  | None => ret tt
  | Some error =>
      m <- lift (messageProperty error) ;;
      throw (ErrorObj ("Failed to initialize git repository at "
                       +:+ REPO_PATH git +:+ ": " +:+ toString m))
  end.

(** [error instanceof Error ? error.message : String(error)] *)
Definition describe (error : Thrown) : string :=
  match error with
  | ErrorObj m => m
  | Raw v => toString v
  end.

(** The shape shared by the eleven cases: the body in a [try], and a
    [catch] that returns the failure envelope for that action. *)
Definition guarded (action : string) (body : M ToolResult) : M ToolResult :=
  tryCatch body
    (fun error => ret (failure (action +:+ " error: " +:+ describe error))).

(** Destructuring a property out of the argument bag. *)
Definition prop (args : gmap string JsValue) (key : string) : JsValue :=
  default JUndefined (args !! key).

(** [cond ? validateBranchName(cond) : undefined] *)
Definition validateBranchNameIfGiven (v : JsValue) : M JsValue :=
  if truthy v then b <- lift (validateBranchName v) ;; ret (JStr b)
  else ret JUndefined.

(** [a || b] *)
Definition orElse (a b : JsValue) : JsValue := if truthy a then a else b.

(** [files.length > 0]: strings and arrays have a length; on the other
    values the property is undefined and the comparison is false. *)
Definition lengthPositive (v : JsValue) : bool :=
  match v with
  | JStr s => (0 <? String.length s)%nat
  | JArr items => (0 <? List.length items)%nat
  | _ => false
  end.

(** The callback of [files.map] in commit_changes. *)
Definition checkFile (file : JsValue) : Completion JsValue :=
  if negb (isString file) then
    Throw (ErrorObj "File paths must be strings")
  else
    let s := toString file in
    if includes s ".." || startsWith s "/" || includes s backslashStr
       || matchesClass dangerousClass s then
      Throw (ErrorObj ("Invalid file path: " +:+ s))
    else Normal file.

(** [items.map(f)]: left to right, the first throw ends it. *)
Fixpoint mapArray (f : JsValue -> Completion JsValue) (items : list JsValue)
  : Completion (list JsValue) :=
  match items with
  | [] => Normal []
  | x :: rest =>
      match f x with
      | Throw t => Throw t
      | Normal y =>
          match mapArray f rest with
          | Throw t => Throw t
          | Normal ys => Normal (y :: ys)
          end
      end
  end.

(** [files.map(callback)] on any value: only arrays have [map]. *)
Definition filesMap (files : JsValue) : Completion JsValue :=
  match files with
  | JArr items =>
      match mapArray checkFile items with
      | Normal ys => Normal (JArr ys)
      | Throw t => Throw t
      end
  | _ => Throw (ErrorObj "files.map is not a function")
  end.

(** The tool names the [switch] has a case for. *)
Inductive Tool : Type :=
| git_status | create_branch | switch_branch | list_branches
| create_worktree | list_worktrees | merge_branch | remove_worktree
| commit_changes | push_changes | pull_changes.

Definition toolNames : list (string * Tool) :=
  [ ("git_status", git_status); ("create_branch", create_branch);
    ("switch_branch", switch_branch); ("list_branches", list_branches);
    ("create_worktree", create_worktree); ("list_worktrees", list_worktrees);
    ("merge_branch", merge_branch); ("remove_worktree", remove_worktree);
    ("commit_changes", commit_changes); ("push_changes", push_changes);
    ("pull_changes", pull_changes) ].

(** Which [case] label, if any, equals [name]. *)
Fixpoint selectCase (cases : list (string * Tool)) (name : string) : option Tool :=
  match cases with
  | [] => None
  | (label, t) :: rest =>
      if String.eqb name label then Some t else selectCase rest name
  end.

(** The action prefix of each case's failure text. *)
Definition actionName (t : Tool) : string :=
  match t with
  | git_status => "Git status"
  | create_branch => "Create branch"
  | switch_branch => "Switch branch"
  | list_branches => "List branches"
  | create_worktree => "Create worktree"
  | list_worktrees => "List worktrees"
  | merge_branch => "Merge"
  | remove_worktree => "Remove worktree"
  | commit_changes => "Commit"
  | push_changes => "Push"
  | pull_changes => "Pull"
  end.

(** The [try] body of each case. *)
Definition caseBody (t : Tool) (args : gmap string JsValue) : M ToolResult :=
  match t with
  | git_status =>
      createGitInstance ;;;
      st <- await status ;;
      ret (success st)
  | create_branch =>
      createGitInstance ;;;
      let branchName := prop args "branchName" in
      let fromBranch := prop args "fromBranch" in
      validatedBranchName <- lift (validateBranchName branchName) ;;
      validatedFromBranch <- validateBranchNameIfGiven fromBranch ;;
      (if truthy validatedFromBranch
       then await (checkoutBranch validatedBranchName (toString validatedFromBranch))
       else await (checkoutLocalBranch validatedBranchName)) ;;;
      ret (success ("Branch '" +:+ validatedBranchName +:+ "' created successfully"
                    +:+ (if truthy validatedFromBranch
                         then " from '" +:+ toString validatedFromBranch +:+ "'"
                         else "")))
  | switch_branch =>
      createGitInstance ;;;
      let branchName := prop args "branchName" in
      validatedBranchName <- lift (validateBranchName branchName) ;;
      await (checkout validatedBranchName) ;;;
      ret (success ("Switched to branch '" +:+ validatedBranchName +:+ "'"))
  | list_branches =>
      createGitInstance ;;;
      branches <- await branch ;;
      ret (success branches)
  | create_worktree =>
      createGitInstance ;;;
      let path := prop args "path" in
      let branch := prop args "branch" in
      validatedPath <- lift (validatePath path) ;;
      validatedBranch <- validateBranchNameIfGiven branch ;;
      let worktreeBranch :=
        toString (orElse (orElse validatedBranch (pop (split "/" validatedPath)))
                         (JStr "worktree-branch")) in
      await (raw ["worktree"; "add"; "-b"; worktreeBranch; validatedPath]) ;;;
      ret (success ("Worktree created at '" +:+ validatedPath
                    +:+ "' on new branch '" +:+ worktreeBranch +:+ "'"))
  | list_worktrees =>
      createGitInstance ;;;
      worktrees <- await (raw ["worktree"; "list"]) ;;
      ret (success worktrees)
  | merge_branch =>
      createGitInstance ;;;
      let sourceBranch := prop args "sourceBranch" in
      let targetBranch := prop args "targetBranch" in
      validatedSourceBranch <- lift (validateBranchName sourceBranch) ;;
      validatedTargetBranch <- validateBranchNameIfGiven targetBranch ;;
      (if truthy validatedTargetBranch
       then await (checkout (toString validatedTargetBranch)) ;;; ret tt
       else ret tt) ;;;
      await (merge [validatedSourceBranch]) ;;;
      ret (success ("Merged '" +:+ validatedSourceBranch +:+ "' into '"
                    +:+ toString (orElse validatedTargetBranch (JStr "current branch"))
                    +:+ "'"))
  | remove_worktree =>
      createGitInstance ;;;
      let path := prop args "path" in
      validatedPath <- lift (validatePath path) ;;
      await (raw ["worktree"; "remove"; validatedPath]) ;;;
      ret (success ("Worktree at '" +:+ validatedPath +:+ "' removed successfully"))
  | commit_changes =>
      createGitInstance ;;;
      let message := prop args "message" in
      let files := prop args "files" in
      validatedMessage <- lift (validateCommitMessage message) ;;
      (if truthy files && lengthPositive files
       then validatedFiles <- lift (filesMap files) ;;
            await (add validatedFiles)
       else await (add (JStr "."))) ;;;
      result <- await (commit validatedMessage) ;;
      ret (success ("Changes committed: " +:+ result))
  | push_changes =>
      createGitInstance ;;;
      let remote := match prop args "remote" with
                    | JUndefined => JStr "origin"
                    | v => v
                    end in
      let branch := prop args "branch" in
      (if truthy branch then await (push [remote; branch]) else await (push [])) ;;;
      ret (success ("Changes pushed to " +:+ toString remote
                    +:+ (if truthy branch then "/" +:+ toString branch else "")))
  | pull_changes =>
      createGitInstance ;;;
      let remote := match prop args "remote" with
                    | JUndefined => JStr "origin"
                    | v => v
                    end in
      let branch := prop args "branch" in
      (if truthy branch then await (pull [remote; branch]) else await (pull [])) ;;;
      ret (success ("Changes pulled from " +:+ toString remote
                    +:+ (if truthy branch then "/" +:+ toString branch else "")))
  end.

Definition executeTool (name : string) (args : gmap string JsValue) : M ToolResult :=
  match selectCase toolNames name with
  | Some t => guarded (actionName t) (caseBody t args)
  | None => ret (failure ("Unknown tool: " +:+ name))
  end.

End Dispatcher.

(** ** A recording handle

    The handle the unit tests use: every primitive resolves, a commit with
    the id [abc123] and the others with the text [output]; the repository
    state is the number of calls it served. *)
Definition mockPayload (c : GitCall) : string :=
  match c with
  | commit _ => "abc123"
  | _ => "output"
  end.

Definition mockGit : Engine nat :=
  {| REPO_PATH := "/repo";
     simpleGit := None;
     run := fun c served => (Resolved (mockPayload c), S served) |}.

(** A handle that does not bind: [simpleGit] throws, as it does on a
    directory that does not exist. *)
Definition unboundGit : Engine nat :=
  {| REPO_PATH := "/missing";
     simpleGit := Some (ErrorObj "Cannot use simple-git on a directory that does not exist");
     run := fun c served => (Resolved (mockPayload c), S served) |}.

(** A handle on which every merge is rejected, as on a conflict; the other
    primitives resolve. *)
Definition conflictGit : Engine nat :=
  {| REPO_PATH := "/repo";
     simpleGit := None;
     run := fun c served =>
              match c with
              | merge _ => (Rejected (ErrorObj "CONFLICTS: merge conflict"), S served)
              | _ => (Resolved (mockPayload c), S served)
              end |}.

(** The empty argument bag [{}]. *)
Definition noArgs : gmap string JsValue := ∅.

(** ** Vocabulary of the properties

    The properties below speak of strings the way the documentation does:
    "contains", "begins with", "contains one of these characters".  These
    are stated on concatenation, independently of the functions above, and
    related to them by the lemmas of the first section of proofs. *)

Definition Contains (s p : string) : Prop :=
  exists a b, s = a +:+ p +:+ b.

Definition BeginsWith (s p : string) : Prop :=
  exists b, s = p +:+ b.

Definition ContainsAnyOf (cls : list ascii) (s : string) : Prop :=
  exists c, In c cls /\ Contains s (String c EmptyString).

(** A drive-letter-style absolute prefix: a Latin letter, then a colon. *)
Definition isLetter (c : ascii) : bool :=
  let n := nat_of_ascii c in
  ((65 <=? n) && (n <=? 90) || (97 <=? n) && (n <=? 122))%nat.

Definition driveLetterPrefix (s : string) : bool :=
  match s with
  | String c (String ":" _) => isLetter c
  | _ => false
  end.

(** [seg] is what remains of [path] after its last separator: the final
    segment of the path split on "/" (the whole path when it has no
    separator, the empty string when it ends in one). *)
Definition FinalSegment (path seg : string) : Prop :=
  ~ Contains seg "/" /\ (path = seg \/ exists dir, path = dir +:+ "/" +:+ seg).

(** A synchronous call ended in a throw. *)
Definition throws {A : Type} (c : Completion A) : bool :=
  match c with Throw _ => true | Normal _ => false end.

(** An optional argument is validated when it is given, that is, truthy. *)
Definition givenAndRejected (validator : JsValue -> Completion string)
    (v : JsValue) : bool :=
  truthy v && throws (validator v).

(** The commit file-list check rejects a non-empty array one of whose
    entries the per-file check refuses. *)
Definition fileListRejected (files : JsValue) : bool :=
  match files with
  | JArr items => existsb (fun f => throws (checkFile f)) items
  | _ => false
  end.

(** The validation each tool applies to its argument bag, by the
    dispatcher's table: some validator refuses one of the inputs. *)
Definition validationRejects (t : Tool) (args : gmap string JsValue) : bool :=
  match t with
  | create_branch =>
      throws (validateBranchName (prop args "branchName"))
      || givenAndRejected validateBranchName (prop args "fromBranch")
  | switch_branch =>
      throws (validateBranchName (prop args "branchName"))
  | merge_branch =>
      throws (validateBranchName (prop args "sourceBranch"))
      || givenAndRejected validateBranchName (prop args "targetBranch")
  | create_worktree =>
      throws (validatePath (prop args "path"))
      || givenAndRejected validateBranchName (prop args "branch")
  | remove_worktree =>
      throws (validatePath (prop args "path"))
  | commit_changes =>
      throws (validateCommitMessage (prop args "message"))
      || fileListRejected (prop args "files")
  | git_status | list_branches | list_worktrees | push_changes | pull_changes =>
      false
  end.

(** An entry of a commit file list that the per-file checks refuse: not a
    string, or a string that contains "..", starts with "/", contains a
    backslash or contains a dangerous character. *)
Definition Offending (file : JsValue) : Prop :=
  (forall s, file <> JStr s) \/
  exists s, file = JStr s /\
    (Contains s ".." \/ BeginsWith s "/" \/ Contains s backslashStr
     \/ ContainsAnyOf dangerousClass s).

(** What the per-file check says of an offending entry: it quotes a
    refused string, and has one fixed message for every non-string. *)
Definition fileRefusal (file : JsValue) : string :=
  match file with
  | JStr s => "Invalid file path: " +:+ s
  | _ => "File paths must be strings"
  end.

(** The text of a one-item result. *)
Definition resultText (r : ToolResult) : string :=
  match content r with
  | [item] => text item
  | _ => ""
  end.

(** A well-formed invocation result: exactly one content item, of type
    "text". *)
Definition WellFormed (r : ToolResult) : Prop :=
  exists t, content r = [ {| type := "text"; text := t |} ].

(** ** The tool registry and the protocol handlers *)

Module Registry.

(** One entry of [inputSchema.properties]. *)
Record PropertySchema : Type := {
  type : string;
  items : option string;      (* [items: { type }], on the array property *)
  description : string
}.

Record InputSchema : Type := {
  schemaType : string;
  properties : list (string * PropertySchema);
  required : option (list string)   (* the key is absent on several tools *)
}.

Record ToolDescriptor : Type := {
  name : string;
  summary : string;           (* the descriptor's [description] *)
  inputSchema : InputSchema
}.

Definition str (d : string) : PropertySchema :=
  {| type := "string"; items := None; description := d |}.

Definition tools : list ToolDescriptor :=
  [ {| name := "git_status";
       summary := "Get the current Git repository status";
       inputSchema := {| schemaType := "object"; properties := [];
                         required := None |} |};
    {| name := "create_branch";
       summary := "Create a new Git branch";
       inputSchema :=
         {| schemaType := "object";
            properties :=
              [ ("branchName", str "Name of the new branch");
                ("fromBranch", str "Source branch to create from (optional)") ];
            required := Some ["branchName"] |} |};
    {| name := "switch_branch";
       summary := "Switch to a different Git branch";
       inputSchema :=
         {| schemaType := "object";
            properties := [ ("branchName", str "Name of the branch to switch to") ];
            required := Some ["branchName"] |} |};
    {| name := "list_branches";
       summary := "List all Git branches";
       inputSchema := {| schemaType := "object"; properties := [];
                         required := None |} |};
    {| name := "merge_branch";
       summary := "Merge branches";
       inputSchema :=
         {| schemaType := "object";
            properties :=
              [ ("sourceBranch", str "Branch to merge from");
                ("targetBranch", str "Branch to merge into (optional)") ];
            required := Some ["sourceBranch"] |} |};
    {| name := "create_worktree";
       summary := "Create a new Git worktree";
       inputSchema :=
         {| schemaType := "object";
            properties :=
              [ ("path", str "Path for the new worktree");
                ("branch", str "Branch for the worktree (optional)") ];
            required := Some ["path"] |} |};
    {| name := "list_worktrees";
       summary := "List all Git worktrees";
       inputSchema := {| schemaType := "object"; properties := [];
                         required := None |} |};
    {| name := "remove_worktree";
       summary := "Remove a Git worktree";
       inputSchema :=
         {| schemaType := "object";
            properties := [ ("path", str "Path of the worktree to remove") ];
            required := Some ["path"] |} |};
    {| name := "commit_changes";
       summary := "Commit changes";
       inputSchema :=
         {| schemaType := "object";
            properties :=
              [ ("message", str "Commit message");
                ("files", {| type := "array"; items := Some "string";
                             description := "Specific files to commit (optional)" |}) ];
            required := Some ["message"] |} |};
    {| name := "push_changes";
       summary := "Push changes to remote";
       inputSchema :=
         {| schemaType := "object";
            properties :=
              [ ("remote", str "Remote name (optional, defaults to 'origin')");
                ("branch", str "Branch to push (optional)") ];
            required := None |} |};
    {| name := "pull_changes";
       summary := "Pull changes from remote";
       inputSchema :=
         {| schemaType := "object";
            properties :=
              [ ("remote", str "Remote name (optional, defaults to 'origin')");
                ("branch", str "Branch to pull (optional)") ];
            required := None |} |} ].

(** The names a descriptor declares, and those it requires. *)
Definition declared (d : ToolDescriptor) : list string :=
  map fst (properties (inputSchema d)).

Definition requiredOf (d : ToolDescriptor) : list string :=
  default [] (required (inputSchema d)).

End Registry.

(** The ListTools handler: [{ tools: tools }]. *)
Definition listToolsHandler : list Registry.ToolDescriptor := Registry.tools.

(** The CallTool handler:
    [const { name, arguments: args = {} } = request.params;
     return await executeTool(name, args)].
    An absent [arguments] is [None]. *)
Definition callToolHandler {Repo : Type} (git : Engine Repo) (name : string)
    (arguments : option (gmap string JsValue)) : M ToolResult :=
  executeTool git name (default ∅ arguments).

(** ** Vocabulary for what reaches the primitives *)

(** Free of the characters < > | & ; $ ` and of the backslash. *)
Definition Clean (s : string) : Prop :=
  ~ ContainsAnyOf dangerousClass s /\ ~ Contains s backslashStr.

(** Clean, and without "..". *)
Definition CleanName (s : string) : Prop :=
  Clean s /\ ~ Contains s "..".

(** Every character of [s] is one that [trim] strips. *)
Fixpoint allWhiteSpace (s : string) : bool :=
  match s with
  | EmptyString => true
  | String c s' => isWhiteSpace c && allWhiteSpace s'
  end.

(** Empty, or beginning with a character that [trim] keeps. *)
Definition headKept (s : string) : Prop :=
  match s with
  | EmptyString => True
  | String c _ => isWhiteSpace c = false
  end.

(** The primitive calls each tool may make, with what is known of the
    strings it hands over. *)
Definition Permitted (t : Tool) (c : GitCall) : Prop :=
  match t with
  | git_status => c = status
  | list_branches => c = branch
  | list_worktrees => c = raw ["worktree"; "list"]
  | create_branch =>
      (exists b, c = checkoutLocalBranch b /\ CleanName b)
      \/ (exists b f, c = checkoutBranch b f /\ CleanName b /\ CleanName f)
  | switch_branch => exists b, c = checkout b /\ CleanName b
  | merge_branch =>
      (exists b, c = checkout b /\ CleanName b)
      \/ (exists b, c = merge [b] /\ CleanName b)
  | create_worktree =>
      exists b p, c = raw ["worktree"; "add"; "-b"; b; p]
                  /\ b <> "" /\ CleanName b /\ validatePath (JStr p) = Normal p
  | remove_worktree =>
      exists p, c = raw ["worktree"; "remove"; p]
                /\ validatePath (JStr p) = Normal p
  | commit_changes =>
      c = add (JStr ".")
      \/ (exists files, c = add (JArr files)
                        /\ Forall (fun f => exists s, f = JStr s /\ CleanName s
                                                     /\ ~ BeginsWith s "/") files)
      \/ (exists m, c = commit m /\ m <> "" /\ Clean m)
  | push_changes => exists arguments, c = push arguments
  | pull_changes => exists arguments, c = pull arguments
  end.

(** * Proofs *)

(** ** Strings: the boolean tests decide the stated notions *)

Section StringFacts.

Lemma append_nil_l (b : string) : "" +:+ b = b.
Proof. reflexivity. Qed.

Lemma append_cons (c : ascii) (a b : string) :
  String c a +:+ b = String c (a +:+ b).
Proof. reflexivity. Qed.

Lemma append_assoc (a b c : string) : (a +:+ b) +:+ c = a +:+ (b +:+ c).
Proof.
  induction a as [|x a IH]; [reflexivity |].
  rewrite !append_cons. now rewrite IH.
Qed.

Lemma startsWith_BeginsWith (s p : string) :
  startsWith s p = true <-> BeginsWith s p.
Proof.
  unfold BeginsWith. revert s. induction p as [|c p IH]; intros s; simpl.
  - split; [intros _; now exists s | reflexivity].
  - destruct s as [|d s].
    + split; [discriminate | intros [b Hb]; discriminate].
    + rewrite andb_true_iff, IH, Ascii.eqb_eq. split.
      * intros [-> [b ->]]. now exists b.
      * intros [b Hb]. rewrite append_cons in Hb. injection Hb as -> ->.
        split; [reflexivity | now exists b].
Qed.

Lemma includes_Contains (s p : string) :
  includes s p = true <-> Contains s p.
Proof.
  unfold Contains. induction s as [|d s IH].
  - simpl. rewrite orb_false_r, startsWith_BeginsWith. split.
    + intros [b Hb]. now exists "", b.
    + intros [a [b Hab]]. destruct a; [now exists b | discriminate].
  - cbn [includes]. rewrite orb_true_iff, IH, startsWith_BeginsWith. split.
    + intros [[b Hb] | [a [b Hab]]].
      * now exists "", b.
      * exists (String d a), b. rewrite append_cons. now rewrite Hab.
    + intros [a [b Hab]]. destruct a as [|x a].
      * left. now exists b.
      * right. rewrite append_cons in Hab. injection Hab as _ ->. now exists a, b.
Qed.

Lemma existsb_eqb_In (c : ascii) (cls : list ascii) :
  existsb (Ascii.eqb c) cls = true <-> In c cls.
Proof.
  rewrite existsb_exists. split.
  - intros [x [Hx Heq]]. apply Ascii.eqb_eq in Heq. now subst.
  - intros H. exists c. split; [assumption | apply Ascii.eqb_refl].
Qed.

Lemma matchesClass_ContainsAnyOf (cls : list ascii) (s : string) :
  matchesClass cls s = true <-> ContainsAnyOf cls s.
Proof.
  unfold ContainsAnyOf, Contains. induction s as [|d s IH]; simpl.
  - split; [discriminate |].
    intros [c [_ [a [b Hab]]]]. destruct a; discriminate.
  - rewrite orb_true_iff, IH, existsb_eqb_In. split.
    + intros [Hd | [c [Hc [a [b Hab]]]]].
      * exists d. split; [assumption | now exists "", s].
      * exists c. split; [assumption |]. exists (String d a), b.
        rewrite append_cons. now rewrite Hab.
    + intros [c [Hc [a [b Hab]]]]. destruct a as [|x a].
      * rewrite append_nil_l, append_cons in Hab. injection Hab as -> _. now left.
      * rewrite append_cons in Hab. injection Hab as _ ->. right.
        exists c. split; [assumption | now exists a, b].
Qed.

Lemma matchesClass_app (cls extra : list ascii) (s : string) :
  matchesClass (cls ++ extra)%list s = matchesClass cls s || matchesClass extra s.
Proof.
  induction s as [|d s IH]; simpl; [reflexivity |].
  rewrite IH, existsb_app.
  destruct (existsb (Ascii.eqb d) cls), (existsb (Ascii.eqb d) extra),
    (matchesClass cls s), (matchesClass extra s); reflexivity.
Qed.

Lemma matchesClass_single (c : ascii) (s : string) :
  matchesClass [c] s = includes s (String c "").
Proof.
  induction s as [|d s IH]; simpl; [reflexivity |].
  rewrite IH, orb_false_r, andb_true_r, Ascii.eqb_sym. reflexivity.
Qed.

(** A text that begins with any action name followed by [p] contains [p]. *)
Lemma startsWith_append_includes (s action p : string) :
  startsWith s (action +:+ p) = true -> includes s p = true.
Proof.
  rewrite startsWith_BeginsWith, includes_Contains.
  intros [b Hb]. exists action, b. rewrite Hb. apply append_assoc.
Qed.

End StringFacts.

(** ** Validators *)

Section ValidatorFacts.

Lemma not_string_cases (v : JsValue) :
  (forall s, v <> JStr s) -> isString v = false.
Proof. destruct v; intros H; try reflexivity. now destruct (H s). Qed.

Lemma matchesClass_nonempty (cls : list ascii) (s : string) :
  matchesClass cls s = true -> s <> "".
Proof. destruct s; [discriminate | intros _; discriminate]. Qed.

Lemma includes_nonempty (s p : string) :
  p <> "" -> includes s p = true -> s <> "".
Proof.
  intros Hp H ->. destruct p as [|c p]; [now apply Hp | discriminate].
Qed.

(** The three steps of [validatePath] on a string, as equations. *)
Lemma validatePath_JStr (s : string) :
  validatePath (JStr s) =
    if String.eqb s "" then Throw (ErrorObj "Path must be a non-empty string")
    else if includes s ".." || startsWith s "/" || includes s backslashStr
    then Throw (ErrorObj "Invalid path: path traversal not allowed")
    else if matchesClass dangerousClass s
    then Throw (ErrorObj "Invalid path: dangerous characters not allowed")
    else Normal s.
Proof.
  unfold validatePath. cbn [truthy isString toString negb orb].
  destruct (String.eqb s ""); cbn [negb orb]; [reflexivity |].
  destruct (includes s ".."), (startsWith s "/"), (includes s backslashStr);
    reflexivity.
Qed.

Lemma validateCommitMessage_JStr (s : string) :
  validateCommitMessage (JStr s) =
    if String.eqb s "" then Throw (ErrorObj "Commit message must be a non-empty string")
    else if matchesClass dangerousClass s || includes s backslashStr
    then Throw (ErrorObj "Invalid commit message: dangerous characters not allowed")
    else Normal s.
Proof.
  unfold validateCommitMessage, dangerousClassBackslash.
  cbn [truthy isString toString negb orb].
  rewrite matchesClass_app, matchesClass_single.
  destruct (String.eqb s ""); reflexivity.
Qed.

Lemma validateBranchName_JStr (s : string) :
  validateBranchName (JStr s) =
    if String.eqb s "" then Throw (ErrorObj "Branch name must be a non-empty string")
    else if matchesClass dangerousClass s || includes s backslashStr || includes s ".."
    then Throw (ErrorObj "Invalid branch name: dangerous characters not allowed")
    else if (String.length (trim s) =? 0)%nat
    then Throw (ErrorObj "Branch name cannot be empty or whitespace-only")
    else Normal (trim s).
Proof.
  unfold validateBranchName, dangerousClassBackslash.
  cbn [truthy isString toString negb orb].
  rewrite matchesClass_app, matchesClass_single.
  destruct (String.eqb s ""); reflexivity.
Qed.

Lemma validator_not_string
    (v : JsValue) :
  isString v = false ->
  validatePath v = Throw (ErrorObj "Path must be a non-empty string")
  /\ validateBranchName v = Throw (ErrorObj "Branch name must be a non-empty string")
  /\ validateCommitMessage v = Throw (ErrorObj "Commit message must be a non-empty string").
Proof.
  intros H. unfold validatePath, validateBranchName, validateCommitMessage.
  rewrite H. cbn [negb]. rewrite !orb_true_r. auto.
Qed.

Lemma eqb_empty_false (s : string) : s <> "" -> String.eqb s "" = false.
Proof. intros H. now apply String.eqb_neq. Qed.

Lemma not_true_false (b : bool) : b <> true -> b = false.
Proof. now destruct b. Qed.

End ValidatorFacts.

(** C3 (as amended).  [validatePath] fails for every candidate that is not
    a string, is empty, contains "..", begins with "/", contains a
    backslash anywhere, or contains one of the characters < > | & ; $ `;
    every other candidate that does not begin with a drive-letter-style
    prefix is returned unchanged. *)
Theorem validatePath_characterised (v : JsValue) :
  ((forall s, v <> JStr s) \/ v = JStr "" \/
   (exists s, v = JStr s /\
      (Contains s ".." \/ BeginsWith s "/" \/ Contains s backslashStr
       \/ ContainsAnyOf dangerousClass s)) ->
   exists message, validatePath v = Throw (ErrorObj message))
  /\
  (forall s, v = JStr s -> s <> "" ->
     ~ Contains s ".." -> ~ BeginsWith s "/" -> ~ Contains s backslashStr ->
     ~ ContainsAnyOf dangerousClass s ->
     driveLetterPrefix s = false ->
     validatePath v = Normal s).
Proof.
  split.
  - intros [Hns | [-> | [s [-> Hbad]]]].
    + apply not_string_cases in Hns.
      destruct (validator_not_string v Hns) as [-> _]. eauto.
    + eexists. reflexivity.
    + rewrite validatePath_JStr.
      destruct (String.eqb s ""); [eauto |].
      rewrite <- !includes_Contains, <- startsWith_BeginsWith,
        <- matchesClass_ContainsAnyOf in Hbad.
      destruct Hbad as [-> | [-> | [-> | ->]]]; cbn [orb]; rewrite ?orb_true_r;
        eauto.
      destruct (_ || _ || _); eauto.
  - intros s -> Hne Hdots Hslash Hback Hdanger _.
    rewrite validatePath_JStr, (eqb_empty_false s Hne).
    rewrite <- includes_Contains in Hdots, Hback.
    rewrite <- startsWith_BeginsWith in Hslash.
    rewrite <- matchesClass_ContainsAnyOf in Hdanger.
    rewrite (not_true_false _ Hdots), (not_true_false _ Hslash),
      (not_true_false _ Hback), (not_true_false _ Hdanger).
    reflexivity.
Qed.

(** C3, refuted as stated: "a\b" is not empty, has no "..", no leading
    separator, no drive-letter prefix and no dangerous character, and is
    refused all the same, for the backslash inside it. *)
Lemma validatePath_inner_backslash_refused :
  String.eqb "a\b" "" = false
  /\ includes "a\b" ".." = false
  /\ startsWith "a\b" "/" = false
  /\ startsWith "a\b" backslashStr = false
  /\ driveLetterPrefix "a\b" = false
  /\ matchesClass dangerousClass "a\b" = false
  /\ validatePath (JStr "a\b")
     = Throw (ErrorObj "Invalid path: path traversal not allowed").
Proof. repeat split; reflexivity. Qed.

Lemma validatePath_characterised_witness :
  (exists message, validatePath (JStr "src/../etc") = Throw (ErrorObj message))
  /\ validatePath (JStr "src/lib/app.js") = Normal "src/lib/app.js".
Proof.
  split.
  - apply (proj1 (validatePath_characterised (JStr "src/../etc"))).
    right. right. exists "src/../etc". split; [reflexivity |].
    left. exists "src/", "/etc". reflexivity.
  - apply (proj2 (validatePath_characterised (JStr "src/lib/app.js")));
      [ reflexivity | discriminate | | | | | reflexivity ].
    + intros H. apply includes_Contains in H. discriminate H.
    + intros H. apply startsWith_BeginsWith in H. discriminate H.
    + intros H. apply includes_Contains in H. discriminate H.
    + intros H. apply matchesClass_ContainsAnyOf in H. discriminate H.
Defined.

(** C4 (as amended).  Every string containing one of < > | & ; $ ` is
    refused by the three validators.  The branch-name and commit-message
    validators answer with their "dangerous characters" message;
    [validatePath] answers with its "dangerous characters" message unless
    the string also contains "..", begins with "/" or contains a backslash,
    in which case the earlier path-traversal check answers. *)
Theorem dangerous_characters_rejected (s : string) :
  ContainsAnyOf dangerousClass s ->
  validateBranchName (JStr s)
    = Throw (ErrorObj "Invalid branch name: dangerous characters not allowed")
  /\ validateCommitMessage (JStr s)
    = Throw (ErrorObj "Invalid commit message: dangerous characters not allowed")
  /\ (Contains s ".." \/ BeginsWith s "/" \/ Contains s backslashStr ->
      validatePath (JStr s)
        = Throw (ErrorObj "Invalid path: path traversal not allowed"))
  /\ (~ (Contains s ".." \/ BeginsWith s "/" \/ Contains s backslashStr) ->
      validatePath (JStr s)
        = Throw (ErrorObj "Invalid path: dangerous characters not allowed")).
Proof.
  intros Hd. apply matchesClass_ContainsAnyOf in Hd.
  pose proof (eqb_empty_false s (matchesClass_nonempty _ _ Hd)) as Hne.
  rewrite validateBranchName_JStr, validateCommitMessage_JStr, validatePath_JStr.
  rewrite Hne, Hd. cbn [orb].
  rewrite <- !includes_Contains, <- startsWith_BeginsWith.
  repeat split.
  - intros [-> | [-> | ->]]; rewrite ?orb_true_r; reflexivity.
  - intros Hnone.
    destruct (includes s "..") eqn:E1; [destruct Hnone; auto |].
    destruct (startsWith s "/") eqn:E2; [destruct Hnone; auto |].
    destruct (includes s backslashStr) eqn:E3; [destruct Hnone; auto |].
    reflexivity.
Qed.

(** C4, refuted as stated: "../a;b" contains ";" and [validatePath] refuses
    it with the path-traversal message. *)
Lemma validatePath_dangerous_reports_traversal :
  ContainsAnyOf dangerousClass "../a;b"
  /\ validatePath (JStr "../a;b")
     = Throw (ErrorObj "Invalid path: path traversal not allowed").
Proof.
  split; [| reflexivity].
  apply matchesClass_ContainsAnyOf. reflexivity.
Qed.

Lemma dangerous_characters_rejected_witness :
  ContainsAnyOf dangerousClass "feat|x"
  /\ validateBranchName (JStr "feat|x")
     = Throw (ErrorObj "Invalid branch name: dangerous characters not allowed")
  /\ validateCommitMessage (JStr "feat|x")
     = Throw (ErrorObj "Invalid commit message: dangerous characters not allowed")
  /\ validatePath (JStr "feat|x")
     = Throw (ErrorObj "Invalid path: dangerous characters not allowed").
Proof.
  assert (Hd : ContainsAnyOf dangerousClass "feat|x").
  { exists "|"%char. split; [right; right; left; reflexivity |].
    exists "feat", "x". reflexivity. }
  destruct (dangerous_characters_rejected "feat|x" Hd) as [Hb [Hc [_ Hp]]].
  split; [exact Hd | split; [exact Hb | split; [exact Hc |]]].
  apply Hp. intros [H | [H | H]].
  - apply includes_Contains in H. discriminate H.
  - apply startsWith_BeginsWith in H. discriminate H.
  - apply includes_Contains in H. discriminate H.
Defined.

(** C8 (as amended).  [validateCommitMessage] fails exactly when the
    candidate is not a string, is empty, or contains one of the characters
    < > | & ; $ ` or a backslash; every other candidate (the substring ".."
    included) is returned unchanged, untrimmed. *)
Theorem validateCommitMessage_characterised (v : JsValue) :
  ((forall s, v <> JStr s) \/ v = JStr "" \/
   (exists s, v = JStr s /\
      (ContainsAnyOf dangerousClass s \/ Contains s backslashStr)) ->
   exists message, validateCommitMessage v = Throw (ErrorObj message))
  /\
  (forall s, v = JStr s -> s <> "" ->
     ~ ContainsAnyOf dangerousClass s -> ~ Contains s backslashStr ->
     validateCommitMessage v = Normal s).
Proof.
  split.
  - intros [Hns | [-> | [s [-> Hbad]]]].
    + apply not_string_cases in Hns.
      destruct (validator_not_string v Hns) as [_ [_ ->]]. eauto.
    + eexists. reflexivity.
    + rewrite validateCommitMessage_JStr.
      destruct (String.eqb s ""); [eauto |].
      rewrite <- includes_Contains, <- matchesClass_ContainsAnyOf in Hbad.
      destruct Hbad as [-> | ->]; rewrite ?orb_true_r; cbn [orb]; eauto.
  - intros s -> Hne Hdanger Hback.
    rewrite validateCommitMessage_JStr, (eqb_empty_false s Hne).
    rewrite <- includes_Contains in Hback.
    rewrite <- matchesClass_ContainsAnyOf in Hdanger.
    rewrite (not_true_false _ Hdanger), (not_true_false _ Hback).
    reflexivity.
Qed.

(** C8, refuted as stated: "fix a\b" is a non-empty string with none of
    < > | & ; $ ` and the validator refuses it. *)
Lemma validateCommitMessage_backslash_refused :
  String.eqb "fix a\b" "" = false
  /\ matchesClass dangerousClass "fix a\b" = false
  /\ validateCommitMessage (JStr "fix a\b")
     = Throw (ErrorObj "Invalid commit message: dangerous characters not allowed").
Proof. repeat split; reflexivity. Qed.

Lemma validateCommitMessage_characterised_witness :
  (exists message,
     validateCommitMessage (JStr "Message;rm -rf /") = Throw (ErrorObj message))
  /\ validateCommitMessage (JStr "  Add feature..
   details  ") = Normal "  Add feature..
   details  ".
Proof.
  split.
  - apply (proj1 (validateCommitMessage_characterised (JStr "Message;rm -rf /"))).
    right. right. eexists. split; [reflexivity |]. left.
    exists ";"%char. split; [do 4 right; left; reflexivity |].
    exists "Message", "rm -rf /". reflexivity.
  - apply (proj2 (validateCommitMessage_characterised _));
      [ reflexivity | discriminate | | ].
    + intros H. apply matchesClass_ContainsAnyOf in H. discriminate H.
    + intros H. apply includes_Contains in H. discriminate H.
Defined.

(** ** The dispatcher *)

Section DispatcherFacts.

Context {Repo : Type} (git : Engine Repo).

(** Binding the handle never touches the repository, and succeeds when
    [simpleGit] does. *)
Lemma createGitInstance_state (st : State) :
  exists c, createGitInstance git st = (c, st)
            /\ (simpleGit git = None -> c = Normal tt).
Proof.
  unfold createGitInstance. destruct (simpleGit git) as [e|].
  - unfold bind, lift, throw.
    destruct (messageProperty e); eexists; split; try reflexivity; discriminate.
  - eexists. split; reflexivity.
Qed.

(** A [try] body that completes normally returns a success envelope. *)
Lemma caseBody_success (t : Tool) (args : gmap string JsValue) (st st' : State)
    (r : ToolResult) :
  caseBody git t args st = (Normal r, st') -> exists txt, r = success txt.
Proof.
  destruct st as [repo journal].
  destruct t;
    unfold caseBody, createGitInstance, validateBranchNameIfGiven,
      bind, ret, throw, lift, await;
    intros H; repeat case_match; simplify_eq; eauto.
Qed.

(** What the [catch] of a recognised tool makes of a throw. *)
Lemma executeTool_of_throw (name : string) (t : Tool)
    (args : gmap string JsValue) (st st' : State) (e : Thrown) :
  selectCase toolNames name = Some t ->
  caseBody git t args st = (Throw e, st') ->
  executeTool git name args st
    = (Normal (failure (actionName t +:+ " error: " +:+ describe e)), st').
Proof.
  intros Hsel Hbody. unfold executeTool, guarded, tryCatch.
  rewrite Hsel, Hbody. reflexivity.
Qed.

Lemma executeTool_of_normal (name : string) (t : Tool)
    (args : gmap string JsValue) (st st' : State) (r : ToolResult) :
  selectCase toolNames name = Some t ->
  caseBody git t args st = (Normal r, st') ->
  executeTool git name args st = (Normal r, st').
Proof.
  intros Hsel Hbody. unfold executeTool, guarded, tryCatch.
  rewrite Hsel, Hbody. reflexivity.
Qed.

Lemma mapArray_rejected (items : list JsValue) :
  existsb (fun f => throws (checkFile f)) items = true ->
  exists e, mapArray checkFile items = Throw e.
Proof.
  induction items as [|x items IH]; [discriminate |].
  cbn [existsb mapArray]. destruct (checkFile x) as [y|e]; cbn [throws orb].
  - intros H. destruct (IH H) as [e ->]. eauto.
  - eauto.
Qed.

Lemma fileListRejected_filesMap (files : JsValue) :
  fileListRejected files = true ->
  truthy files && lengthPositive files = true
  /\ exists e, filesMap files = Throw e.
Proof.
  destruct files as [| | | | |items]; try discriminate.
  cbn [fileListRejected]. intros H. split.
  - destruct items; [discriminate | reflexivity].
  - cbn [filesMap]. destruct (mapArray_rejected items H) as [e ->]. eauto.
Qed.

(** When a validator refuses an input, the [try] body throws in the state
    it started from. *)
Lemma rejected_body_throws (t : Tool) (args : gmap string JsValue) (st : State) :
  validationRejects t args = true ->
  exists e, caseBody git t args st = (Throw e, st).
Proof.
  intros H. destruct st as [repo journal].
  destruct (createGitInstance_state (repo, journal)) as [c [Hc _]].
  destruct t; cbn [validationRejects] in H; try discriminate;
    unfold givenAndRejected in H;
    cbn [caseBody]; unfold bind at 1; rewrite Hc;
    (destruct c as [[]|e]; [| eauto]);
    unfold validateBranchNameIfGiven; unfold bind, lift, ret.
  all: try (apply orb_true_iff in H; destruct H as [H | H]).
  all: try (apply andb_true_iff in H; destruct H as [Hg H]; rewrite ?Hg).
  all: try (apply fileListRejected_filesMap in H; destruct H as [-> [e ->]]).
  all: unfold throws in *; repeat case_match; simplify_eq; eauto.
Qed.

Lemma actionName_inj (t1 t2 : Tool) : actionName t1 = actionName t2 -> t1 = t2.
Proof. destruct t1, t2; intros H; try reflexivity; discriminate H. Qed.

(** C1 (as amended).  For every tool name and argument bag the dispatcher
    returns a well-formed invocation result and no exception leaves it.
    The result of a recognised tool is a failure ([isError] true) exactly
    when its [try] body threw; the text is then "<Action> error: " followed
    by the message of the caught error, or by the caught value rendered as
    a string when it is not an error, and by nothing else.  The failure for
    an unrecognised name has the text "Unknown tool: <name>", with no
    action prefix.  Action names differ from tool to tool. *)
Theorem executeTool_always_returns (name : string)
    (args : gmap string JsValue) (st : State) :
  (exists r st',
     executeTool git name args st = (Normal r, st')
     /\ WellFormed r
     /\ (isError r = true ->
         match selectCase toolNames name with
         | Some t =>
             exists error,
               caseBody git t args st = (Throw error, st')
               /\ resultText r
                  = actionName t +:+ " error: "
                    +:+ match error with
                        | ErrorObj message => message
                        | Raw v => toString v
                        end
         | None => resultText r = "Unknown tool: " +:+ name
         end)
     /\ (isError r = false ->
         exists t, selectCase toolNames name = Some t
                   /\ caseBody git t args st = (Normal r, st')))
  /\ (forall t1 t2, actionName t1 = actionName t2 -> t1 = t2).
Proof.
  split; [| exact actionName_inj].
  destruct (selectCase toolNames name) as [t|] eqn:Hsel.
  - destruct (caseBody git t args st) as [[r|e] st'] eqn:Hbody.
    + exists r, st'. split; [exact (executeTool_of_normal _ _ _ _ _ _ Hsel Hbody) |].
      destruct (caseBody_success _ _ _ _ _ Hbody) as [txt ->].
      split; [now exists txt |]. split; [discriminate |].
      intros _. exists t. split; [reflexivity | first [exact Hbody | reflexivity]].
    + eexists _, st'. split; [exact (executeTool_of_throw _ _ _ _ _ _ Hsel Hbody) |].
      split; [eexists; reflexivity |]. split; [| discriminate].
      intros _. exists e. split; [first [exact Hbody | reflexivity] |].
      destruct e; reflexivity.
  - exists (failure ("Unknown tool: " +:+ name)), st.
    unfold executeTool. rewrite Hsel.
    split; [reflexivity |]. split; [eexists; reflexivity |].
    split; [reflexivity | discriminate].
Qed.

(** C2.  When a validator (validatePath, validateBranchName,
    validateCommitMessage or the commit file-list check) refuses an input
    of a tool, the dispatcher returns a failure and the machine state is
    the one it started from: the repository is unchanged and no primitive
    was added to the journal. *)
Theorem validation_failure_touches_nothing (name : string) (t : Tool)
    (args : gmap string JsValue) (repo : Repo) (journal : list GitCall) :
  selectCase toolNames name = Some t ->
  validationRejects t args = true ->
  exists txt,
    executeTool git name args (repo, journal)
      = (Normal (failure txt), (repo, journal))
    /\ BeginsWith txt (actionName t +:+ " error: ").
Proof.
  intros Hsel Hrej.
  destruct (rejected_body_throws t args (repo, journal) Hrej) as [e Hbody].
  eexists. split; [exact (executeTool_of_throw _ _ _ _ _ _ Hsel Hbody) |].
  exists (describe e). symmetry. apply append_assoc.
Qed.

(** C9.  [validatePath] refuses every string that contains a backslash,
    wherever it stands, with the path-traversal message; so the two tools
    that take a path fail on it in the state they started from, and the
    path reaches no primitive. *)
Theorem validatePath_rejects_backslash (s : string) :
  Contains s backslashStr ->
  validatePath (JStr s)
    = Throw (ErrorObj "Invalid path: path traversal not allowed")
  /\ forall name args st,
       name = "create_worktree" \/ name = "remove_worktree" ->
       prop args "path" = JStr s ->
       exists txt,
         executeTool git name args st = (Normal (failure txt), st).
Proof.
  intros Hb. apply includes_Contains in Hb.
  assert (Hv : validatePath (JStr s)
               = Throw (ErrorObj "Invalid path: path traversal not allowed")).
  { rewrite validatePath_JStr.
    rewrite (eqb_empty_false s); [| apply (includes_nonempty s backslashStr);
                                     [discriminate | exact Hb]].
    rewrite Hb, !orb_true_r. reflexivity. }
  split; [exact Hv |].
  intros name args st Hname Hpath.
  assert (Hsel : exists t, selectCase toolNames name = Some t
                           /\ validationRejects t args = true).
  { destruct Hname as [-> | ->]; eexists; (split; [reflexivity |]);
      cbn [validationRejects]; rewrite Hpath, Hv; reflexivity. }
  destruct Hsel as [t [Hsel Hrej]].
  destruct (rejected_body_throws t args st Hrej) as [e Hbody].
  eexists. exact (executeTool_of_throw _ _ _ _ _ _ Hsel Hbody).
Qed.

End DispatcherFacts.

(** ** Path segments *)

Section SegmentFacts.

Lemma split_no_separator (sep : ascii) (s : string) :
  includes s (String sep "") = false -> split sep s = [s].
Proof.
  induction s as [|c s IH]; [reflexivity |].
  cbn [includes startsWith split]. rewrite andb_true_r.
  rewrite Ascii.eqb_sym.
  destruct (Ascii.eqb c sep); [discriminate |].
  cbn [orb]. intros H. now rewrite (IH H).
Qed.

Lemma split_nonempty (sep : ascii) (s : string) : split sep s <> [].
Proof.
  destruct s as [|c s]; cbn [split]; [discriminate |].
  destruct (Ascii.eqb c sep); [discriminate |].
  destruct (split sep s); discriminate.
Qed.

Lemma split_append (sep : ascii) (dir seg : string) :
  split sep (dir +:+ String sep seg) = (split sep dir ++ split sep seg)%list.
Proof.
  induction dir as [|c dir IH].
  - rewrite append_nil_l. cbn [split]. now rewrite Ascii.eqb_refl.
  - rewrite append_cons. cbn [split]. rewrite IH.
    destruct (Ascii.eqb c sep); [reflexivity |].
    destruct (split sep dir) as [|x rest] eqn:E; [| reflexivity].
    now destruct (split_nonempty sep dir).
Qed.

Lemma pop_last (segs : list string) (seg : string) :
  pop (segs ++ [seg])%list = JStr seg.
Proof. unfold pop. rewrite map_app. cbn [map]. now rewrite List.last_last. Qed.

Lemma pop_FinalSegment (path seg : string) :
  FinalSegment path seg -> pop (split "/" path) = JStr seg.
Proof.
  intros [Hno Hshape].
  assert (Hseg : split "/" seg = [seg]).
  { apply split_no_separator. apply not_true_false.
    intros H. apply Hno. now apply includes_Contains. }
  destruct Hshape as [-> | [dir ->]].
  - rewrite Hseg. apply (pop_last []).
  - change ("/" +:+ seg) with (String "/" seg).
    rewrite split_append, Hseg. apply pop_last.
Qed.

End SegmentFacts.

Section DispatcherRuns.

Context {Repo : Type} (git : Engine Repo).

Lemma createGitInstance_ok (st : State) :
  simpleGit git = None -> createGitInstance git st = (Normal tt, st).
Proof. unfold createGitInstance. now intros ->. Qed.

Lemma validatePath_normal (v : JsValue) (p : string) :
  validatePath v = Normal p -> v = JStr p.
Proof.
  unfold validatePath. destruct v; cbn [truthy isString negb orb];
    rewrite ?orb_true_r; try discriminate.
  intros H. repeat case_match; simplify_eq. reflexivity.
Qed.

Ltac enter_case :=
  unfold executeTool;
  match goal with
  | |- context [selectCase toolNames ?n] =>
      let t := eval vm_compute in (selectCase toolNames n) in
      change (selectCase toolNames n) with t
  end;
  unfold guarded, tryCatch; cbn [caseBody actionName]; unfold bind at 1.

(** C5.  When create_worktree is given a valid path and no branch, the
    new branch is named after the final segment of the path split on "/"
    when that segment is not empty, and "worktree-branch" when it is: that
    name is what the worktree primitive receives and what the success text
    reports. *)
Theorem create_worktree_default_branch (args : gmap string JsValue)
    (p seg : string) (repo : Repo) (journal : list GitCall) :
  simpleGit git = None ->
  validatePath (prop args "path") = Normal p ->
  truthy (prop args "branch") = false ->
  FinalSegment p seg ->
  let worktreeBranch := if String.eqb seg "" then "worktree-branch" else seg in
  let call := raw ["worktree"; "add"; "-b"; worktreeBranch; p] in
  executeTool git "create_worktree" args (repo, journal) =
    match run git call repo with
    | (Resolved _, repo') =>
        (Normal (success ("Worktree created at '" +:+ p +:+ "' on new branch '"
                          +:+ worktreeBranch +:+ "'")),
         (repo', (journal ++ [call])%list))
    | (Rejected e, repo') =>
        (Normal (failure ("Create worktree error: " +:+ describe e)),
         (repo', (journal ++ [call])%list))
    end.
Proof.
  intros Hinit Hpath Hbranch Hseg wb call.
  enter_case. rewrite (createGitInstance_ok _ Hinit).
  unfold validateBranchNameIfGiven. rewrite Hbranch.
  unfold bind, lift, ret. rewrite Hpath.
  rewrite (pop_FinalSegment p seg Hseg).
  assert (Hwb : toString (orElse (orElse JUndefined (JStr seg)) (JStr "worktree-branch")) = wb).
  { unfold orElse, wb. cbn [truthy]. destruct (String.eqb seg ""); reflexivity. }
  rewrite Hwb. fold call. unfold await.
  destruct (run git call repo) as [[payload|e] repo']; reflexivity.
Qed.

(** The per-file check refuses exactly the offending entries, and says
    which string it refused. *)
Lemma checkFile_Offending (file : JsValue) :
  Offending file -> checkFile file = Throw (ErrorObj (fileRefusal file)).
Proof.
  intros [Hns | [s [-> Hbad]]].
  - unfold checkFile. rewrite (not_string_cases file Hns). cbn [negb].
    destruct file; try reflexivity. now destruct (Hns s).
  - unfold checkFile. cbn [isString negb toString fileRefusal].
    rewrite <- !includes_Contains, <- startsWith_BeginsWith,
      <- matchesClass_ContainsAnyOf in Hbad.
    destruct Hbad as [-> | [-> | [-> | ->]]]; rewrite ?orb_true_r; reflexivity.
Qed.

Lemma checkFile_accepted (file : JsValue) :
  ~ Offending file -> checkFile file = Normal file.
Proof.
  intros Hok. unfold checkFile. destruct file as [| | | | s |];
    try (destruct Hok; left; discriminate).
  cbn [isString negb toString].
  destruct (includes s ".." || startsWith s "/" || includes s backslashStr
            || matchesClass dangerousClass s) eqn:E; [| reflexivity].
  destruct Hok. right. exists s. split; [reflexivity |].
  rewrite <- !includes_Contains, <- startsWith_BeginsWith,
    <- matchesClass_ContainsAnyOf.
  repeat (apply orb_true_iff in E; destruct E as [E | E]); auto.
Qed.

Lemma mapArray_first_offending (good : list JsValue) (bad : JsValue)
    (rest : list JsValue) :
  Forall (fun f => ~ Offending f) good ->
  Offending bad ->
  mapArray checkFile (good ++ bad :: rest)%list
    = Throw (ErrorObj (fileRefusal bad)).
Proof.
  intros Hgood Hbad.
  induction Hgood as [|f good Hf Hgood IH]; cbn [app mapArray].
  - now rewrite (checkFile_Offending bad Hbad).
  - now rewrite (checkFile_accepted f Hf), IH.
Qed.

Lemma Offending_throws (file : JsValue) :
  Offending file -> throws (checkFile file) = true.
Proof. intros H. now rewrite (checkFile_Offending file H). Qed.

Lemma prop_insert (args : gmap string JsValue) (key : string) (v : JsValue) :
  prop (<[key := v]> args) key = v.
Proof. unfold prop. now rewrite lookup_insert_eq. Qed.

Lemma prop_insert_other (args : gmap string JsValue) (key other : string)
    (v : JsValue) :
  key <> other -> prop (<[key := v]> args) other = prop args other.
Proof. intros H. unfold prop. now rewrite lookup_insert_ne. Qed.

Lemma prop_delete (args : gmap string JsValue) (key : string) :
  prop (delete key args) key = JUndefined.
Proof. unfold prop. now rewrite lookup_delete_eq. Qed.

Lemma prop_delete_other (args : gmap string JsValue) (key other : string) :
  key <> other -> prop (delete key args) other = prop args other.
Proof. intros H. unfold prop. now rewrite lookup_delete_ne. Qed.

(** C7 (as amended).  When the files argument of commit_changes is an
    array with an entry that is not a string, or a string that contains
    "..", starts with "/", contains a backslash or contains a dangerous
    character, the whole batch fails: the result is a failure and nothing
    is staged or committed.  With a bound handle and a valid message, the
    text is "Commit error: Invalid file path: <entry>" when the first such
    entry is a string, and the fixed "Commit error: File paths must be
    strings", which does not quote the entry, when it is not a string. *)
Theorem commit_file_list_rejected (args : gmap string JsValue)
    (items : list JsValue) (repo : Repo) (journal : list GitCall) :
  prop args "files" = JArr items ->
  (exists f, In f items /\ Offending f) ->
  (exists txt,
     executeTool git "commit_changes" args (repo, journal)
       = (Normal (failure txt), (repo, journal)))
  /\ (forall good bad rest m,
        items = (good ++ bad :: rest)%list ->
        Forall (fun f => ~ Offending f) good ->
        Offending bad ->
        simpleGit git = None ->
        validateCommitMessage (prop args "message") = Normal m ->
        executeTool git "commit_changes" args (repo, journal)
          = (Normal (failure ("Commit error: " +:+ fileRefusal bad)),
             (repo, journal))).
Proof.
  intros Hfiles [f [Hin Hoff]]. split.
  - assert (Hrej : validationRejects commit_changes args = true).
    { cbn [validationRejects]. rewrite Hfiles. cbn [fileListRejected].
      apply orb_true_iff. right. apply existsb_exists.
      exists f. split; [exact Hin | now apply Offending_throws]. }
    destruct (rejected_body_throws git _ _ (repo, journal) Hrej) as [e Hbody].
    eexists.
    exact (executeTool_of_throw git "commit_changes" _ _ _ _ _ eq_refl Hbody).
  - intros good bad rest m -> Hgood Hbad Hinit Hmsg.
    enter_case. rewrite (createGitInstance_ok _ Hinit).
    unfold bind, lift. rewrite Hmsg, Hfiles.
    assert (Hlen : truthy (JArr (good ++ bad :: rest))
                   && lengthPositive (JArr (good ++ bad :: rest)) = true).
    { destruct good; reflexivity. }
    rewrite Hlen. cbn [filesMap].
    rewrite (mapArray_first_offending good bad rest Hgood Hbad).
    reflexivity.
Qed.

(** C10.  A files argument that is the empty array gives the same run as
    no files argument at all: same result, same repository, same journal.
    With a bound handle and a valid message that run stages everything
    (add ".") and, when staging resolves, commits with the validated
    message. *)
Theorem commit_empty_file_list_stages_all (args : gmap string JsValue)
    (repo : Repo) (journal : list GitCall) :
  executeTool git "commit_changes" (<["files" := JArr []]> args) (repo, journal)
    = executeTool git "commit_changes" (delete "files" args) (repo, journal)
  /\ (forall m,
        simpleGit git = None ->
        validateCommitMessage (prop args "message") = Normal m ->
        executeTool git "commit_changes" (<["files" := JArr []]> args)
          (repo, journal)
        = match run git (add (JStr ".")) repo with
          | (Rejected e, repo1) =>
              (Normal (failure ("Commit error: " +:+ describe e)),
               (repo1, (journal ++ [add (JStr ".")])%list))
          | (Resolved _, repo1) =>
              match run git (commit m) repo1 with
              | (Resolved id, repo2) =>
                  (Normal (success ("Changes committed: " +:+ id)),
                   (repo2, (journal ++ [add (JStr "."); commit m])%list))
              | (Rejected e, repo2) =>
                  (Normal (failure ("Commit error: " +:+ describe e)),
                   (repo2, (journal ++ [add (JStr "."); commit m])%list))
              end
          end).
Proof.
  split.
  - unfold executeTool.
    change (selectCase toolNames "commit_changes") with (Some commit_changes).
    cbn [caseBody].
    rewrite prop_insert, prop_delete.
    rewrite prop_insert_other, prop_delete_other by discriminate.
    reflexivity.
  - intros m Hinit Hmsg.
    enter_case. rewrite (createGitInstance_ok _ Hinit).
    rewrite prop_insert, prop_insert_other by discriminate.
    change (truthy (JArr []) && lengthPositive (JArr [])) with false.
    unfold bind, lift, ret. rewrite Hmsg.
    unfold await.
    destruct (run git (add (JStr ".")) repo) as [[p1|e1] repo1];
      [| reflexivity].
    rewrite <- app_assoc. cbn [app].
    destruct (run git (commit m) repo1) as [[id|e2] repo2]; reflexivity.
Qed.

End DispatcherRuns.

(** ** Runs on the recording handle *)

Lemma accepted_not_Offending (file : JsValue) :
  checkFile file = Normal file -> ~ Offending file.
Proof.
  intros Hok Hoff. rewrite (checkFile_Offending file Hoff) in Hok. discriminate.
Qed.

(** Without a branch, push is called with no argument at all, whatever the
    remote; the text still names the remote. *)
Lemma push_without_branch {Repo : Type} (git : Engine Repo)
    (args : gmap string JsValue) (repo : Repo) (journal : list GitCall) :
  simpleGit git = None ->
  truthy (prop args "branch") = false ->
  snd (snd (executeTool git "push_changes" args (repo, journal)))
    = (journal ++ [push []])%list.
Proof.
  intros Hinit Hbranch. unfold executeTool.
  change (selectCase toolNames "push_changes") with (Some push_changes).
  unfold guarded, tryCatch. cbn [caseBody]. unfold bind at 1.
  rewrite (createGitInstance_ok git _ Hinit). rewrite Hbranch.
  unfold bind, ret, await.
  destruct (run git (push []) repo) as [[payload|e] repo']; reflexivity.
Qed.

(** C1, refuted as stated: the failure for an unknown tool name does not
    begin with any action name followed by " error: ". *)
Lemma unknown_tool_has_no_action_prefix :
  executeTool mockGit "nope" noArgs (0, [])
    = (Normal (failure "Unknown tool: nope"), (0, []))
  /\ isError (failure "Unknown tool: nope") = true
  /\ (forall action,
        startsWith "Unknown tool: nope" (action +:+ " error: ") = false).
Proof.
  split; [reflexivity |]. split; [reflexivity |].
  intros action.
  destruct (startsWith "Unknown tool: nope" (action +:+ " error: ")) eqn:E;
    [| reflexivity].
  apply startsWith_append_includes in E. discriminate E.
Qed.

Lemma executeTool_always_returns_witness :
  exists r st',
    executeTool mockGit "create_branch"
      (<["branchName" := JStr "feature;rm"]> noArgs) (0, [])
      = (Normal r, st')
    /\ WellFormed r
    /\ (isError r = true ->
        exists error,
          caseBody mockGit create_branch
            (<["branchName" := JStr "feature;rm"]> noArgs) (0, [])
            = (Throw error, st')
          /\ resultText r
             = "Create branch error: "
               +:+ match error with
                   | ErrorObj message => message
                   | Raw v => toString v
                   end)
    /\ (isError r = false ->
        exists t, selectCase toolNames "create_branch" = Some t
                  /\ caseBody mockGit t
                       (<["branchName" := JStr "feature;rm"]> noArgs) (0, [])
                     = (Normal r, st')).
Proof.
  exact (proj1 (executeTool_always_returns mockGit "create_branch"
                  (<["branchName" := JStr "feature;rm"]> noArgs) (0, []))).
Defined.

Lemma validation_failure_touches_nothing_witness :
  selectCase toolNames "merge_branch" = Some merge_branch
  /\ validationRejects merge_branch
       (<["sourceBranch" := JStr "feature"]>
          (<["targetBranch" := JStr "main;rm"]> noArgs)) = true
  /\ exists txt,
       executeTool mockGit "merge_branch"
         (<["sourceBranch" := JStr "feature"]>
            (<["targetBranch" := JStr "main;rm"]> noArgs)) (0, [])
         = (Normal (failure txt), (0, []))
       /\ BeginsWith txt "Merge error: ".
Proof.
  split; [reflexivity |]. split; [reflexivity |].
  apply (validation_failure_touches_nothing mockGit "merge_branch" merge_branch
           (<["sourceBranch" := JStr "feature"]>
              (<["targetBranch" := JStr "main;rm"]> noArgs)) 0 []);
    reflexivity.
Defined.

Lemma create_worktree_default_branch_witness :
  executeTool mockGit "create_worktree" (<["path" := JStr "tmp/w"]> noArgs) (0, [])
    = (Normal (success "Worktree created at 'tmp/w' on new branch 'w'"),
       (1, [raw ["worktree"; "add"; "-b"; "w"; "tmp/w"]]))
  /\ executeTool mockGit "create_worktree" (<["path" := JStr "tmp/"]> noArgs) (0, [])
    = (Normal (success
                 "Worktree created at 'tmp/' on new branch 'worktree-branch'"),
       (1, [raw ["worktree"; "add"; "-b"; "worktree-branch"; "tmp/"]])).
Proof.
  split.
  - apply (create_worktree_default_branch mockGit
             (<["path" := JStr "tmp/w"]> noArgs) "tmp/w" "w" 0 []);
      [reflexivity | reflexivity | reflexivity |].
    split; [| right; exists "tmp"; reflexivity].
    intros H. apply includes_Contains in H. discriminate H.
  - apply (create_worktree_default_branch mockGit
             (<["path" := JStr "tmp/"]> noArgs) "tmp/" "" 0 []);
      [reflexivity | reflexivity | reflexivity |].
    split; [| right; exists "tmp"; reflexivity].
    intros H. apply includes_Contains in H. discriminate H.
Defined.

(** C6, refuted as stated: with a remote and no branch the push primitive
    is called with no argument (the remote is not passed), while the text
    reports the remote; the two scenarios of the documentation are shown
    beside it. *)
Theorem push_remote_without_branch_not_passed :
  executeTool mockGit "push_changes" (<["remote" := JStr "upstream"]> noArgs) (0, [])
    = (Normal (success "Changes pushed to upstream"), (1, [push []]))
  /\ executeTool mockGit "push_changes" noArgs (0, [])
    = (Normal (success "Changes pushed to origin"), (1, [push []]))
  /\ executeTool mockGit "push_changes"
       (<["remote" := JStr "upstream"]> (<["branch" := JStr "feature"]> noArgs))
       (0, [])
    = (Normal (success "Changes pushed to upstream/feature"),
       (1, [push [JStr "upstream"; JStr "feature"]])).
Proof. repeat split; reflexivity. Qed.

(** C7, refuted as stated: for files ["a.txt", 123] the failure text is the
    fixed message, in which the entry 123 does not occur. *)
Lemma commit_non_string_entry_not_named :
  executeTool mockGit "commit_changes"
    (<["message" := JStr "Test commit"]>
       (<["files" := JArr [JStr "a.txt"; JNum 123]]> noArgs)) (0, [])
    = (Normal (failure "Commit error: File paths must be strings"), (0, []))
  /\ toString (JNum 123) = "123"
  /\ includes "Commit error: File paths must be strings" "123" = false.
Proof. repeat split; reflexivity. Qed.

Lemma commit_file_list_rejected_witness :
  executeTool mockGit "commit_changes"
    (<["message" := JStr "Test commit"]>
       (<["files" := JArr [JStr "a.txt"; JNum 123]]> noArgs)) (0, [])
    = (Normal (failure "Commit error: File paths must be strings"), (0, []))
  /\ executeTool mockGit "commit_changes"
    (<["message" := JStr "Test commit"]>
       (<["files" := JArr [JStr "../x"]]> noArgs)) (0, [])
    = (Normal (failure "Commit error: Invalid file path: ../x"), (0, [])).
Proof.
  assert (Hnum : Offending (JNum 123)) by (left; discriminate).
  assert (Hdots : Offending (JStr "../x")).
  { right. exists "../x". split; [reflexivity |]. left. now exists "", "/x". }
  split.
  - destruct (commit_file_list_rejected mockGit
                (<["message" := JStr "Test commit"]>
                   (<["files" := JArr [JStr "a.txt"; JNum 123]]> noArgs))
                [JStr "a.txt"; JNum 123] 0 []) as [_ Hfirst].
    + reflexivity.
    + exists (JNum 123). split; [right; left; reflexivity | exact Hnum].
    + apply (Hfirst [JStr "a.txt"] (JNum 123) [] "Test commit");
        [reflexivity | | exact Hnum | reflexivity | reflexivity].
      constructor; [| constructor]. apply accepted_not_Offending. reflexivity.
  - destruct (commit_file_list_rejected mockGit
                (<["message" := JStr "Test commit"]>
                   (<["files" := JArr [JStr "../x"]]> noArgs))
                [JStr "../x"] 0 []) as [_ Hfirst].
    + reflexivity.
    + exists (JStr "../x"). split; [left; reflexivity | exact Hdots].
    + apply (Hfirst [] (JStr "../x") [] "Test commit");
        [reflexivity | constructor | exact Hdots | reflexivity | reflexivity].
Defined.

Lemma validatePath_rejects_backslash_witness :
  Contains "a\b" backslashStr
  /\ validatePath (JStr "a\b")
     = Throw (ErrorObj "Invalid path: path traversal not allowed")
  /\ exists txt,
       executeTool mockGit "create_worktree" (<["path" := JStr "a\b"]> noArgs)
         (0, [])
       = (Normal (failure txt), (0, [])).
Proof.
  assert (Hc : Contains "a\b" backslashStr) by (now exists "a", "b").
  destruct (validatePath_rejects_backslash mockGit "a\b" Hc) as [Hv Hall].
  split; [exact Hc |]. split; [exact Hv |].
  apply Hall; [left; reflexivity | reflexivity].
Defined.

Lemma commit_empty_file_list_stages_all_witness :
  executeTool mockGit "commit_changes"
    (<["files" := JArr []]> (<["message" := JStr "Test commit"]> noArgs)) (0, [])
    = executeTool mockGit "commit_changes"
        (delete "files" (<["message" := JStr "Test commit"]> noArgs)) (0, [])
  /\ executeTool mockGit "commit_changes"
    (<["files" := JArr []]> (<["message" := JStr "Test commit"]> noArgs)) (0, [])
    = (Normal (success "Changes committed: abc123"),
       (2, [add (JStr "."); commit "Test commit"])).
Proof.
  split.
  - exact (proj1 (commit_empty_file_list_stages_all mockGit
                    (<["message" := JStr "Test commit"]> noArgs) 0 [])).
  - apply (proj2 (commit_empty_file_list_stages_all mockGit
                    (<["message" := JStr "Test commit"]> noArgs) 0 [])
             "Test commit"); reflexivity.
Defined.

(** * Further properties of the validators *)

Section TrimFacts.

Lemma trimStart_suffix (s : string) : exists a, s = a +:+ trimStart s.
Proof.
  induction s as [|c s [a IH]]; [now exists "" |].
  cbn [trimStart]. destruct (isWhiteSpace c).
  - exists (String c a). rewrite append_cons. now rewrite <- IH.
  - now exists "".
Qed.

Lemma trimEnd_prefix (s : string) : exists b, s = trimEnd s +:+ b.
Proof.
  induction s as [|c s [b IH]]; [now exists "" |].
  cbn [trimEnd]. destruct (trimEnd s) as [|d t] eqn:E.
  - rewrite append_nil_l in IH. subst b.
    destruct (isWhiteSpace c); [now exists (String c s) | now exists s].
  - exists b. rewrite append_cons. now rewrite <- IH.
Qed.

Lemma trim_substring (s : string) : exists a b, s = a +:+ trim s +:+ b.
Proof.
  destruct (trimStart_suffix s) as [a Ha].
  destruct (trimEnd_prefix (trimStart s)) as [b Hb].
  exists a, b. unfold trim. now rewrite <- Hb.
Qed.

Lemma Contains_substring (s inner a b p : string) :
  s = a +:+ inner +:+ b -> Contains inner p -> Contains s p.
Proof.
  intros -> [x [y ->]]. exists (a +:+ x), (y +:+ b).
  now rewrite !append_assoc.
Qed.

Lemma trimEnd_idempotent (s : string) : trimEnd (trimEnd s) = trimEnd s.
Proof.
  induction s as [|c s IH]; [reflexivity |].
  cbn [trimEnd]. destruct (trimEnd s) as [|d t] eqn:E.
  - destruct (isWhiteSpace c) eqn:W; [reflexivity |].
    cbn [trimEnd]. now rewrite W.
  - cbn [trimEnd] in IH |- *. now rewrite IH.
Qed.

Lemma trimStart_headKept (s : string) : headKept (trimStart s).
Proof.
  induction s as [|c s IH]; [exact I |].
  cbn [trimStart]. destruct (isWhiteSpace c) eqn:W; [exact IH | exact W].
Qed.

Lemma trimEnd_headKept (s : string) : headKept s -> headKept (trimEnd s).
Proof.
  destruct s as [|c s]; [trivial |].
  cbn [headKept trimEnd]. intros W.
  destruct (trimEnd s); [rewrite W |]; exact W.
Qed.

Lemma trimStart_fixed (s : string) : headKept s -> trimStart s = s.
Proof.
  destruct s as [|c s]; [reflexivity |].
  cbn [headKept trimStart]. now intros ->.
Qed.

Lemma trim_idempotent (s : string) : trim (trim s) = trim s.
Proof.
  unfold trim.
  rewrite (trimStart_fixed (trimEnd (trimStart s))).
  - apply trimEnd_idempotent.
  - apply trimEnd_headKept, trimStart_headKept.
Qed.

Lemma trimStart_allWhiteSpace (s : string) :
  allWhiteSpace s = true -> trimStart s = "".
Proof.
  induction s as [|c s IH]; [reflexivity |].
  cbn [allWhiteSpace trimStart]. intros H.
  apply andb_true_iff in H. destruct H as [-> H]. now apply IH.
Qed.

Lemma trimEnd_empty (s : string) : trimEnd s = "" -> allWhiteSpace s = true.
Proof.
  induction s as [|c s IH]; [reflexivity |].
  cbn [trimEnd allWhiteSpace]. destruct (trimEnd s) as [|d t]; [| discriminate].
  destruct (isWhiteSpace c); [intros _; now apply IH | discriminate].
Qed.

Lemma trim_empty_iff (s : string) : trim s = "" <-> allWhiteSpace s = true.
Proof.
  unfold trim. split.
  - intros H. pose proof (trimEnd_empty _ H) as Hall.
    pose proof (trimStart_headKept s) as Hk.
    destruct (trimStart s) as [|c t] eqn:E.
    + clear -E. induction s as [|c s IH]; [reflexivity |].
      cbn [trimStart allWhiteSpace] in *.
      destruct (isWhiteSpace c); [now apply IH | discriminate].
    + cbn [headKept] in Hk. cbn [allWhiteSpace] in Hall.
      rewrite Hk in Hall. discriminate.
  - intros H. now rewrite (trimStart_allWhiteSpace s H).
Qed.

(** No character that [trim] strips is one the validators look for. *)
Lemma whiteSpace_harmless (c : ascii) :
  isWhiteSpace c = true ->
  existsb (Ascii.eqb c) dangerousClassBackslash = false
  /\ Ascii.eqb "."%char c = false.
Proof.
  destruct c as [[] [] [] [] [] [] [] []]; intros H;
    try discriminate H; split; reflexivity.
Qed.

Lemma allWhiteSpace_harmless (s : string) :
  allWhiteSpace s = true ->
  matchesClass dangerousClassBackslash s = false /\ includes s ".." = false.
Proof.
  induction s as [|c s IH]; [split; reflexivity |].
  cbn [allWhiteSpace]. intros H. apply andb_true_iff in H. destruct H as [W H].
  destruct (IH H) as [IH1 IH2]. destruct (whiteSpace_harmless c W) as [H1 H2].
  split.
  - cbn [matchesClass]. now rewrite H1, IH1.
  - cbn [includes startsWith]. now rewrite H2, IH2.
Qed.

End TrimFacts.

Section ValidatorNormalForms.

Lemma Clean_booleans (s : string) :
  matchesClass dangerousClass s = false ->
  includes s backslashStr = false ->
  Clean s.
Proof.
  intros Hd Hb. split.
  - intros H. apply matchesClass_ContainsAnyOf in H. congruence.
  - intros H. apply includes_Contains in H. congruence.
Qed.

Lemma Clean_substring (s inner a b : string) :
  s = a +:+ inner +:+ b -> Clean s -> Clean inner.
Proof.
  intros Hs [Hd Hb]. split.
  - intros [c [Hc Hin]]. apply Hd. exists c. split; [exact Hc |].
    exact (Contains_substring _ _ _ _ _ Hs Hin).
  - intros Hin. apply Hb. exact (Contains_substring _ _ _ _ _ Hs Hin).
Qed.

Lemma CleanName_substring (s inner a b : string) :
  s = a +:+ inner +:+ b -> CleanName s -> CleanName inner.
Proof.
  intros Hs [Hc Hdots]. split.
  - exact (Clean_substring _ _ _ _ Hs Hc).
  - intros Hin. apply Hdots. exact (Contains_substring _ _ _ _ _ Hs Hin).
Qed.

Lemma CleanName_booleans (s : string) :
  CleanName s ->
  matchesClass dangerousClass s = false
  /\ includes s backslashStr = false
  /\ includes s ".." = false.
Proof.
  intros [[Hd Hb] Hdots]. repeat split; apply not_true_false; intros H.
  - apply Hd. now apply matchesClass_ContainsAnyOf.
  - apply Hb. now apply includes_Contains.
  - apply Hdots. now apply includes_Contains.
Qed.

(** What acceptance by [validateBranchName] tells of input and result. *)
Lemma validateBranchName_normal (v : JsValue) (r : string) :
  validateBranchName v = Normal r ->
  exists s, v = JStr s /\ r = trim s /\ r <> "" /\ CleanName s.
Proof.
  intros H. destruct v as [| | | | s |];
    try (unfold validateBranchName in H; cbn [isString negb] in H;
         rewrite orb_true_r in H; discriminate H).
  rewrite validateBranchName_JStr in H.
  destruct (String.eqb s ""); [discriminate |].
  destruct (matchesClass dangerousClass s) eqn:Hd; [discriminate |].
  destruct (includes s backslashStr) eqn:Hb; [discriminate |].
  destruct (includes s "..") eqn:Hdots; [discriminate |].
  cbn [orb] in H.
  destruct (String.length (trim s) =? 0)%nat eqn:Hlen; [discriminate |].
  injection H as <-. exists s. repeat split.
  - intros E. rewrite E in Hlen. discriminate.
  - intros Hc. apply matchesClass_ContainsAnyOf in Hc. congruence.
  - intros Hc. apply includes_Contains in Hc. congruence.
  - intros Hc. apply includes_Contains in Hc. congruence.
Qed.

Lemma validateBranchName_fixed (r : string) :
  r <> "" -> CleanName r -> trim r = r ->
  validateBranchName (JStr r) = Normal r.
Proof.
  intros Hne Hclean Htrim.
  destruct (CleanName_booleans r Hclean) as [Hd [Hb Hdots]].
  rewrite validateBranchName_JStr, (eqb_empty_false r Hne), Hd, Hb, Hdots, Htrim.
  cbn [orb]. destruct r; [now destruct Hne | reflexivity].
Qed.

End ValidatorNormalForms.

(** X1.  A branch name that [validateBranchName] accepts comes back as the
    trimmed input; the result is not empty, neither begins nor ends with a
    character that [trim] strips (trimming it again changes nothing), and
    contains no dangerous character, no backslash and no "..". *)
Theorem validateBranchName_result_clean (v : JsValue) (r : string) :
  validateBranchName v = Normal r ->
  (exists s, v = JStr s /\ r = trim s)
  /\ r <> "" /\ trim r = r /\ CleanName r.
Proof.
  intros H. destruct (validateBranchName_normal v r H) as [s [-> [-> [Hne Hc]]]].
  split; [now exists s |]. split; [exact Hne |].
  split; [apply trim_idempotent |].
  destruct (trim_substring s) as [a [b Hs]].
  exact (CleanName_substring _ _ _ _ Hs Hc).
Qed.

Lemma validateBranchName_result_clean_witness :
  validateBranchName (JStr "  feature/x  ") = Normal "feature/x"
  /\ trim "feature/x" = "feature/x" /\ CleanName "feature/x".
Proof.
  destruct (validateBranchName_result_clean (JStr "  feature/x  ") "feature/x"
              eq_refl) as [_ [_ [Ht Hc]]].
  split; [reflexivity | split; [exact Ht | exact Hc]].
Defined.

(** X2.  [validateBranchName] is idempotent: a name it returned is
    accepted again and returned unchanged. *)
Theorem validateBranchName_idempotent (v : JsValue) (r : string) :
  validateBranchName v = Normal r ->
  validateBranchName (JStr r) = Normal r.
Proof.
  intros H. destruct (validateBranchName_normal v r H) as [s [-> [-> [Hne Hc]]]].
  apply validateBranchName_fixed.
  - exact Hne.
  - destruct (trim_substring s) as [a [b Hs]].
    exact (CleanName_substring _ _ _ _ Hs Hc).
  - apply trim_idempotent.
Qed.

Lemma validateBranchName_idempotent_witness :
  validateBranchName (JStr " v1.0.0 ") = Normal "v1.0.0"
  /\ validateBranchName (JStr "v1.0.0") = Normal "v1.0.0".
Proof.
  split; [reflexivity |].
  exact (validateBranchName_idempotent (JStr " v1.0.0 ") "v1.0.0" eq_refl).
Defined.

(** X3.  A non-empty string made only of white-space characters (TAB, LF,
    VT, FF, CR, space, NBSP) is refused by [validateBranchName] with
    "Branch name cannot be empty or whitespace-only", not with the message
    it has for the empty string. *)
Theorem validateBranchName_whitespace_only (s : string) :
  s <> "" ->
  allWhiteSpace s = true ->
  validateBranchName (JStr s)
    = Throw (ErrorObj "Branch name cannot be empty or whitespace-only").
Proof.
  intros Hne Hall. rewrite validateBranchName_JStr, (eqb_empty_false s Hne).
  destruct (allWhiteSpace_harmless s Hall) as [Hd Hdots].
  unfold dangerousClassBackslash in Hd.
  rewrite matchesClass_app, matchesClass_single in Hd.
  apply orb_false_iff in Hd. destruct Hd as [Hd Hb].
  change (String backslash "") with backslashStr in Hb.
  rewrite Hd, Hb, Hdots. cbn [orb].
  apply trim_empty_iff in Hall. now rewrite Hall.
Qed.

Lemma validateBranchName_whitespace_only_witness :
  validateBranchName (JStr "   ")
    = Throw (ErrorObj "Branch name cannot be empty or whitespace-only")
  /\ validateBranchName (JStr "")
    = Throw (ErrorObj "Branch name must be a non-empty string").
Proof.
  split; [| reflexivity].
  apply (validateBranchName_whitespace_only "   "); [discriminate | reflexivity].
Defined.

(** X4.  The per-file check of commit_changes accepts a string exactly when
    the string is empty or [validatePath] accepts it: the two checks differ
    on the empty string only. *)
Theorem checkFile_agrees_with_validatePath (s : string) :
  checkFile (JStr s) = Normal (JStr s)
  <-> (s = "" \/ validatePath (JStr s) = Normal s).
Proof.
  rewrite validatePath_JStr. unfold checkFile. cbn [isString negb toString].
  destruct (String.eqb_spec s "") as [-> | Hne].
  - split; [now left | reflexivity].
  - destruct (includes s ".." || startsWith s "/" || includes s backslashStr);
      cbn [orb].
    + split; [discriminate | intros [E | E]; [contradiction | discriminate]].
    + destruct (matchesClass dangerousClass s).
      * split; [discriminate | intros [E | E]; [contradiction | discriminate]].
      * split; [now right | reflexivity].
Qed.

(** * Registry, handlers and the calls that reach the primitives *)

Section RegistryFacts.

Context {Repo : Type} (git : Engine Repo).

Lemma selectCase_In (cases : list (string * Tool)) (n : string) (t : Tool) :
  selectCase cases n = Some t -> In (n, t) cases.
Proof.
  induction cases as [|[label t'] cases IH]; [discriminate |].
  cbn [selectCase]. destruct (String.eqb_spec n label) as [-> | Hne].
  - intros [= ->]. now left.
  - intros H. right. now apply IH.
Qed.

Lemma selectCase_None (cases : list (string * Tool)) (n : string) :
  selectCase cases n = None -> ~ In n (map fst cases).
Proof.
  induction cases as [|[label t'] cases IH]; [intros _ [] |].
  cbn [selectCase map fst In]. destruct (String.eqb_spec n label) as [-> | Hne].
  - discriminate.
  - intros H [E | Hin]; [now apply Hne | now apply IH].
Qed.

Lemma registry_names :
  map Registry.name Registry.tools
  = [ "git_status"; "create_branch"; "switch_branch"; "list_branches";
      "merge_branch"; "create_worktree"; "list_worktrees"; "remove_worktree";
      "commit_changes"; "push_changes"; "pull_changes" ].
Proof. reflexivity. Qed.

Lemma registry_names_are_cases (n : string) :
  In n (map Registry.name Registry.tools) <-> In n (map fst toolNames).
Proof. rewrite registry_names. cbn [toolNames map fst In]. tauto. Qed.

Lemma action_text_not_unknown (t : Tool) (rest n : string) :
  actionName t +:+ " error: " +:+ rest <> "Unknown tool: " +:+ n.
Proof.
  intros H.
  apply (f_equal (fun s => match s with
                           | String c _ => c
                           | EmptyString => "U"%char
                           end)) in H.
  destruct t; discriminate H.
Qed.

(** X5.  The registry and the dispatcher agree on the tool names: the
    registry lists eleven descriptors with pairwise different names, and
    the dispatcher answers "Unknown tool: <name>", touching nothing,
    exactly for the names the registry does not list. *)
Theorem registry_matches_dispatcher (n : string) (args : gmap string JsValue)
    (st : State) :
  List.length Registry.tools = 11
  /\ NoDup (map Registry.name Registry.tools)
  /\ (executeTool git n args st
        = (Normal (failure ("Unknown tool: " +:+ n)), st)
      <-> ~ In n (map Registry.name Registry.tools)).
Proof.
  split; [reflexivity |]. split.
  - rewrite registry_names. apply NoDup_ListNoDup.
    repeat (constructor; [cbn [In]; intuition discriminate |]). constructor.
  - rewrite registry_names_are_cases. split.
    + intros Hrun Hin.
      destruct (selectCase toolNames n) as [t|] eqn:Hsel.
      * destruct (caseBody git t args st) as [[r|e] st'] eqn:Hbody.
        -- rewrite (executeTool_of_normal git _ _ _ _ _ _ Hsel Hbody) in Hrun.
           destruct (caseBody_success git _ _ _ _ _ Hbody) as [txt ->].
           discriminate Hrun.
        -- rewrite (executeTool_of_throw git _ _ _ _ _ _ Hsel Hbody) in Hrun.
           injection Hrun as Htxt _.
           exact (action_text_not_unknown _ _ _ Htxt).
      * exact (selectCase_None _ _ Hsel Hin).
    + intros Hnot. unfold executeTool.
      destruct (selectCase toolNames n) as [t|] eqn:Hsel; [| reflexivity].
      destruct Hnot. apply selectCase_In in Hsel.
      now apply (in_map fst) in Hsel.
Qed.

Lemma not_nonempty_string_rejected (v : JsValue) :
  (forall s, v = JStr s -> s = "") ->
  throws (validatePath v) = true
  /\ throws (validateBranchName v) = true
  /\ throws (validateCommitMessage v) = true.
Proof.
  intros H. destruct v as [| | | | s |];
    try (match goal with
         | |- context [validatePath ?w] =>
             destruct (validator_not_string w eq_refl) as [-> [-> ->]]
         end; repeat split; reflexivity).
  rewrite (H s eq_refl). repeat split; reflexivity.
Qed.

(** X6.  The arguments the registry marks as required are enforced by the
    dispatcher: when a required argument is absent, or is anything but a
    non-empty string, the tool fails and the repository and journal are
    untouched. *)
Theorem required_arguments_enforced (d : Registry.ToolDescriptor)
    (key : string) (args : gmap string JsValue) (st : State) :
  In d Registry.tools ->
  In key (Registry.requiredOf d) ->
  (forall s, prop args key = JStr s -> s = "") ->
  exists txt,
    executeTool git (Registry.name d) args st = (Normal (failure txt), st).
Proof.
  intros Hd Hkey Hbad.
  destruct (not_nonempty_string_rejected _ Hbad) as [Hp [Hb Hm]].
  assert (Hsel : exists t, selectCase toolNames (Registry.name d) = Some t
                           /\ validationRejects t args = true).
  { cbn [Registry.tools In] in Hd.
    repeat (destruct Hd as [<- | Hd]; [
      cbn in Hkey;
      repeat (destruct Hkey as [<- | Hkey]; [
        eexists; split; [reflexivity |];
        cbn [validationRejects]; rewrite ?Hp, ?Hb, ?Hm; reflexivity |]);
      destruct Hkey |]).
    destruct Hd. }
  destruct Hsel as [t [Hsel Hrej]].
  destruct (rejected_body_throws git t args st Hrej) as [e Hbody].
  eexists. exact (executeTool_of_throw git _ _ _ _ _ _ Hsel Hbody).
Qed.

(** X7.  The dispatcher reads only the arguments the registry declares for
    the tool: two argument bags that agree on the declared properties give
    the same run. *)
Theorem undeclared_arguments_ignored (d : Registry.ToolDescriptor)
    (args args' : gmap string JsValue) (st : State) :
  In d Registry.tools ->
  (forall key, In key (Registry.declared d) -> args !! key = args' !! key) ->
  executeTool git (Registry.name d) args st
    = executeTool git (Registry.name d) args' st.
Proof.
  intros Hd Hagree. cbn [Registry.tools In] in Hd.
  repeat (destruct Hd as [<- | Hd]; [
    cbn in Hagree; unfold executeTool;
    match goal with
    | |- context [selectCase toolNames ?n] =>
        let t := eval vm_compute in (selectCase toolNames n) in
        change (selectCase toolNames n) with t
    end;
    cbn [caseBody]; unfold prop;
    repeat match goal with
           | |- context [args !! ?k] => rewrite (Hagree k) by (cbn; tauto)
           end;
    reflexivity |]).
  destruct Hd.
Qed.

(** X8.  When the handle does not bind ([simpleGit] throws an error), every
    recognised tool fails with its action prefix and "Failed to initialize
    git repository at <REPO_PATH>: <cause>", whatever its arguments (they
    are not even validated), and no primitive is invoked. *)
Theorem binding_failure_reported (n : string) (t : Tool)
    (args : gmap string JsValue) (st : State) (cause : string) :
  selectCase toolNames n = Some t ->
  simpleGit git = Some (ErrorObj cause) ->
  executeTool git n args st
    = (Normal (failure (actionName t +:+ " error: "
                        +:+ "Failed to initialize git repository at "
                        +:+ REPO_PATH git +:+ ": " +:+ cause)),
       st).
Proof.
  intros Hsel Hbind.
  assert (Hbody : caseBody git t args st
                  = (Throw (ErrorObj ("Failed to initialize git repository at "
                                      +:+ REPO_PATH git +:+ ": " +:+ cause)), st)).
  { destruct t; cbn [caseBody]; unfold bind at 1, createGitInstance;
      rewrite Hbind; reflexivity. }
  exact (executeTool_of_throw git _ _ _ _ _ _ Hsel Hbody).
Qed.

End RegistryFacts.

Section JournalFacts.

Context {Repo : Type} (git : Engine Repo).

Lemma CleanName_of_booleans (s : string) :
  matchesClass dangerousClass s = false ->
  includes s backslashStr = false ->
  includes s ".." = false ->
  CleanName s.
Proof.
  intros Hd Hb Hdots. split; [now apply Clean_booleans |].
  intros H. apply includes_Contains in H. congruence.
Qed.

Lemma validateBranchName_clean (v : JsValue) (r : string) :
  validateBranchName v = Normal r -> r <> "" /\ CleanName r.
Proof.
  intros H. destruct (validateBranchName_normal v r H) as [s [-> [-> [Hne Hc]]]].
  split; [exact Hne |].
  destruct (trim_substring s) as [a [b Hs]].
  exact (CleanName_substring _ _ _ _ Hs Hc).
Qed.

Lemma validatePath_fixed (v : JsValue) (p : string) :
  validatePath v = Normal p ->
  validatePath (JStr p) = Normal p /\ CleanName p /\ ~ BeginsWith p "/".
Proof.
  intros H. pose proof (validatePath_normal v p H) as ->.
  split; [exact H |]. rewrite validatePath_JStr in H.
  destruct (String.eqb p ""); [discriminate |].
  destruct (includes p "..") eqn:E1; [discriminate |].
  destruct (startsWith p "/") eqn:E2; [discriminate |].
  destruct (includes p backslashStr) eqn:E3; [discriminate |].
  destruct (matchesClass dangerousClass p) eqn:E4; [discriminate |].
  split; [now apply CleanName_of_booleans |].
  intros Hb. apply startsWith_BeginsWith in Hb. congruence.
Qed.

Lemma validateCommitMessage_clean (v : JsValue) (m : string) :
  validateCommitMessage v = Normal m -> m <> "" /\ Clean m.
Proof.
  intros H. destruct v as [| | | | s |];
    try (unfold validateCommitMessage in H; cbn [isString negb] in H;
         rewrite orb_true_r in H; discriminate H).
  rewrite validateCommitMessage_JStr in H.
  destruct (String.eqb_spec s "") as [-> | Hne]; [discriminate |].
  destruct (matchesClass dangerousClass s) eqn:E1; [discriminate |].
  destruct (includes s backslashStr) eqn:E2; [discriminate |].
  injection H as <-. split; [exact Hne | now apply Clean_booleans].
Qed.

Lemma checkFile_normal (f y : JsValue) :
  checkFile f = Normal y ->
  y = f /\ exists s, f = JStr s /\ CleanName s /\ ~ BeginsWith s "/".
Proof.
  unfold checkFile. destruct f as [| | | | s |]; try discriminate.
  cbn [isString negb toString].
  destruct (includes s "..") eqn:E1; [discriminate |].
  destruct (startsWith s "/") eqn:E2; [discriminate |].
  destruct (includes s backslashStr) eqn:E3; [discriminate |].
  destruct (matchesClass dangerousClass s) eqn:E4; [discriminate |].
  intros [= <-]. split; [reflexivity |]. exists s.
  split; [reflexivity |]. split; [now apply CleanName_of_booleans |].
  intros Hb. apply startsWith_BeginsWith in Hb. congruence.
Qed.

Lemma mapArray_normal (items ys : list JsValue) :
  mapArray checkFile items = Normal ys ->
  ys = items
  /\ Forall (fun f => exists s, f = JStr s /\ CleanName s /\ ~ BeginsWith s "/")
       items.
Proof.
  revert ys. induction items as [|x items IH]; intros ys; cbn [mapArray].
  - intros [= <-]. split; [reflexivity | constructor].
  - destruct (checkFile x) as [y|e] eqn:Hx; [| discriminate].
    destruct (mapArray checkFile items) as [zs|e]; [| discriminate].
    intros [= <-]. destruct (checkFile_normal x y Hx) as [-> Hs].
    destruct (IH zs eq_refl) as [-> Hall].
    split; [reflexivity | now constructor].
Qed.

Lemma filesMap_normal (v a : JsValue) :
  filesMap v = Normal a ->
  exists items,
    a = JArr items /\ v = JArr items
    /\ Forall (fun f => exists s, f = JStr s /\ CleanName s /\ ~ BeginsWith s "/")
         items.
Proof.
  destruct v as [| | | | |items]; try discriminate.
  cbn [filesMap]. destruct (mapArray checkFile items) as [ys|e] eqn:E;
    [| discriminate].
  intros [= <-]. destruct (mapArray_normal items ys E) as [-> Hall].
  now exists items.
Qed.

Lemma split_head_prefix (sep : ascii) (s x : string) (rest : list string) :
  split sep s = x :: rest -> exists b, s = x +:+ b.
Proof.
  revert x rest. induction s as [|c s IH]; intros x rest; cbn [split].
  - intros [= <- _]. now exists "".
  - destruct (Ascii.eqb c sep).
    + intros [= <- _]. now exists (String c s).
    + destruct (split sep s) as [|y ys] eqn:E.
      * intros [= <- _]. now destruct (split_nonempty sep s).
      * intros [= <- _]. destruct (IH y ys eq_refl) as [b ->].
        now exists b.
Qed.

Lemma split_segment_substring (sep : ascii) (s seg : string) :
  In seg (split sep s) -> exists a b, s = a +:+ seg +:+ b.
Proof.
  revert seg. induction s as [|c s IH]; intros seg; cbn [split].
  - intros [<- | []]. now exists "", "".
  - destruct (Ascii.eqb c sep).
    + intros [<- | Hin]; [now exists "", (String c s) |].
      destruct (IH seg Hin) as [a [b ->]]. now exists (String c a), b.
    + destruct (split sep s) as [|y ys] eqn:E.
      * intros [<- | []]. now destruct (split_nonempty sep s).
      * intros [<- | Hin].
        -- destruct (split_head_prefix sep s y ys E) as [b ->].
           now exists "", b.
        -- destruct (IH seg (or_intror Hin)) as [a [b ->]].
           now exists (String c a), b.
Qed.

Lemma pop_segment (segs : list string) :
  segs <> [] -> exists seg, pop segs = JStr seg /\ In seg segs.
Proof.
  intros Hne. destruct (exists_last Hne) as [front [seg ->]].
  exists seg. split; [apply pop_last | apply in_or_app; right; now left].
Qed.

(** The branch name create_worktree settles on is clean and not empty. *)
Lemma worktreeBranch_clean (validatedBranch : JsValue) (p : string) :
  validatedBranch = JUndefined
  \/ (exists b, validatedBranch = JStr b /\ b <> "" /\ CleanName b) ->
  CleanName p ->
  toString (orElse (orElse validatedBranch (pop (split "/" p)))
                   (JStr "worktree-branch")) <> ""
  /\ CleanName (toString (orElse (orElse validatedBranch (pop (split "/" p)))
                                  (JStr "worktree-branch"))).
Proof.
  intros Hvb Hp.
  assert (Hfallback : CleanName "worktree-branch")
    by (now apply CleanName_of_booleans).
  destruct (pop_segment (split "/" p) (split_nonempty _ _)) as [seg [Hpop Hin]].
  destruct (split_segment_substring _ _ _ Hin) as [a [b Hs]].
  pose proof (CleanName_substring _ _ _ _ Hs Hp) as Hseg.
  assert (Hderived : forall u, u = JUndefined ->
            toString (orElse (orElse u (JStr seg)) (JStr "worktree-branch")) <> ""
            /\ CleanName (toString (orElse (orElse u (JStr seg))
                                           (JStr "worktree-branch")))).
  { intros u ->. unfold orElse. cbn [truthy].
    destruct (String.eqb_spec seg "") as [-> | Hne]; cbn [negb truthy toString].
    - split; [discriminate | exact Hfallback].
    - split; assumption. }
  rewrite Hpop. destruct Hvb as [-> | [bn [-> [Hne Hc]]]].
  - now apply Hderived.
  - unfold orElse. cbn [truthy]. rewrite (eqb_empty_false bn Hne).
    cbn [negb truthy]. rewrite (eqb_empty_false bn Hne). cbn [negb toString].
    split; assumption.
Qed.

Lemma validateBranchNameIfGiven_result (v : JsValue) (st : @State Repo) :
  exists c, validateBranchNameIfGiven v st = (c, st)
    /\ ((exists e, c = Throw e)
        \/ c = Normal JUndefined
        \/ exists b, c = Normal (JStr b) /\ b <> "" /\ CleanName b).
Proof.
  unfold validateBranchNameIfGiven. destruct (truthy v).
  - unfold bind, lift, ret.
    destruct (validateBranchName v) as [b|e] eqn:E; eexists; split;
      try reflexivity; [| left; eauto].
    right. right. exists b. split; [reflexivity |].
    exact (validateBranchName_clean v b E).
  - eexists. split; [reflexivity |]. right. now left.
Qed.

(** Steps of a [try] body, one tactic per kind of statement. *)
Ltac bind_handle repo journal :=
  unfold bind at 1;
  let c := fresh "c" in let Hc := fresh "Hc" in
  destruct (createGitInstance_state git (repo, journal)) as [c [Hc _]];
  rewrite Hc; destruct c as [[]|?].

Ltac bind_validator E :=
  unfold bind at 1; unfold lift at 1;
  match goal with
  | |- context [match ?validated with Normal _ => _ | Throw _ => _ end] =>
      destruct validated eqn:E
  end.

Ltac bind_optional repo journal v H :=
  unfold bind at 1;
  let c := fresh "c" in let Hc := fresh "Hc" in
  destruct (validateBranchNameIfGiven_result v (repo, journal)) as [c [Hc H]];
  rewrite Hc.

Ltac bind_await repo :=
  try unfold bind at 1; unfold await at 1;
  match goal with
  | |- context [run git ?call repo] =>
      let r := fresh "repo" in destruct (run git call repo) as [[?|?] r]
  end.

Ltac journal_is added :=
  exists added; split;
  [ cbn [snd]; rewrite <- ?app_assoc, ?app_nil_r; reflexivity
  | split; [cbn [List.length]; lia
         | repeat apply List.Forall_cons; try apply List.Forall_nil; cbn [Permitted]] ].

Lemma caseBody_journal (t : Tool) (args : gmap string JsValue) (repo : Repo)
    (journal : list GitCall) :
  exists added,
    snd (snd (caseBody git t args (repo, journal))) = (journal ++ added)%list
    /\ (List.length added <= 2)%nat
    /\ Forall (Permitted t) added.
Proof.
  destruct t; cbn [caseBody].
  - (* git_status *)
    bind_handle repo journal; [| journal_is (@nil GitCall)].
    bind_await repo; journal_is [status]; reflexivity.
  - (* create_branch *)
    bind_handle repo journal; [| journal_is (@nil GitCall)].
    bind_validator E; [| journal_is (@nil GitCall)].
    destruct (validateBranchName_clean _ _ E) as [_ Hb].
    bind_optional repo journal (prop args "fromBranch") H.
    destruct H as [[e ->] | [-> | [f [-> [Hne Hf]]]]].
    + journal_is (@nil GitCall).
    + cbn [truthy]. bind_await repo; journal_is [checkoutLocalBranch a]; eauto.
    + cbn [truthy toString]. rewrite (eqb_empty_false f Hne). cbn [negb].
      bind_await repo; journal_is [checkoutBranch a f]; eauto 6.
  - (* switch_branch *)
    bind_handle repo journal; [| journal_is (@nil GitCall)].
    bind_validator E; [| journal_is (@nil GitCall)].
    destruct (validateBranchName_clean _ _ E) as [_ Hb].
    bind_await repo; journal_is [checkout a]; eauto.
  - (* list_branches *)
    bind_handle repo journal; [| journal_is (@nil GitCall)].
    bind_await repo; journal_is [branch]; reflexivity.
  - (* create_worktree *)
    bind_handle repo journal; [| journal_is (@nil GitCall)].
    bind_validator E; [| journal_is (@nil GitCall)].
    destruct (validatePath_fixed _ _ E) as [Hfix [Hp _]].
    bind_optional repo journal (prop args "branch") H.
    assert (Hwb : forall vb,
              vb = JUndefined
              \/ (exists b, vb = JStr b /\ b <> "" /\ CleanName b) ->
              Permitted create_worktree
                (raw ["worktree"; "add"; "-b";
                      toString (orElse (orElse vb (pop (split "/" a)))
                                       (JStr "worktree-branch")); a])).
    { intros vb Hvb. destruct (worktreeBranch_clean vb a Hvb Hp) as [Hne Hwb].
      cbn [Permitted]. eauto 8. }
    destruct H as [[e ->] | [-> | [f [-> Hf]]]].
    + journal_is (@nil GitCall).
    + bind_await repo;
        (eexists [_]; split;
         [cbn [snd]; reflexivity
         | split; [cbn [List.length]; lia
                  | apply List.Forall_cons; [apply Hwb; now left | apply List.Forall_nil]]]).
    + bind_await repo;
        (eexists [_]; split;
         [cbn [snd]; reflexivity
         | split; [cbn [List.length]; lia
                  | apply List.Forall_cons; [apply Hwb; right; eauto | apply List.Forall_nil]]]).
  - (* list_worktrees *)
    bind_handle repo journal; [| journal_is (@nil GitCall)].
    bind_await repo; journal_is [raw ["worktree"; "list"]]; reflexivity.
  - (* merge_branch *)
    bind_handle repo journal; [| journal_is (@nil GitCall)].
    bind_validator E; [| journal_is (@nil GitCall)].
    destruct (validateBranchName_clean _ _ E) as [_ Hb].
    bind_optional repo journal (prop args "targetBranch") H.
    destruct H as [[e ->] | [-> | [f [-> [Hne Hf]]]]].
    + journal_is (@nil GitCall).
    + cbn [truthy]. unfold bind at 1, ret at 1.
      bind_await repo; journal_is [merge [a]]; eauto.
    + cbn [truthy toString]. rewrite (eqb_empty_false f Hne). cbn [negb].
      unfold bind at 1. bind_await repo.
      * unfold ret at 1. bind_await repo0;
          journal_is [checkout f; merge [a]]; eauto.
      * journal_is [checkout f]; eauto.
  - (* remove_worktree *)
    bind_handle repo journal; [| journal_is (@nil GitCall)].
    bind_validator E; [| journal_is (@nil GitCall)].
    destruct (validatePath_fixed _ _ E) as [Hfix _].
    bind_await repo; journal_is [raw ["worktree"; "remove"; a]]; eauto.
  - (* commit_changes *)
    bind_handle repo journal; [| journal_is (@nil GitCall)].
    bind_validator E; [| journal_is (@nil GitCall)].
    destruct (validateCommitMessage_clean _ _ E) as [Hne Hm].
    destruct (truthy (prop args "files") && lengthPositive (prop args "files")).
    + unfold bind at 1. bind_validator F; [| journal_is (@nil GitCall)].
      destruct (filesMap_normal _ _ F) as [items [-> [_ Hall]]].
      bind_await repo.
      * bind_await repo0; journal_is [add (JArr items); commit a]; eauto 6.
      * journal_is [add (JArr items)]; eauto 6.
    + unfold bind at 1. bind_await repo.
      * bind_await repo0; journal_is [add (JStr "."); commit a]; eauto 6.
      * journal_is [add (JStr ".")]; eauto.
  - (* push_changes *)
    bind_handle repo journal; [| journal_is (@nil GitCall)].
    destruct (truthy (prop args "branch"));
      bind_await repo; (eexists [_]; split;
         [cbn [snd]; reflexivity
         | split; [cbn [List.length]; lia
                  | apply List.Forall_cons; [cbn [Permitted]; eauto | apply List.Forall_nil]]]).
  - (* pull_changes *)
    bind_handle repo journal; [| journal_is (@nil GitCall)].
    destruct (truthy (prop args "branch"));
      bind_await repo; (eexists [_]; split;
         [cbn [snd]; reflexivity
         | split; [cbn [List.length]; lia
                  | apply List.Forall_cons; [cbn [Permitted]; eauto | apply List.Forall_nil]]]).
Qed.

(** X9.  Whatever the arguments and the engine, a tool invocation adds at
    most two primitive calls to the journal, and only calls that tool may
    make: the read-only tools make their one query; every branch name,
    path, file name and commit message that create_branch, switch_branch,
    merge_branch, create_worktree, remove_worktree and commit_changes hand
    to a primitive is free of the characters < > | & ; $ ` and of
    backslashes (and, except for commit messages, of ".."). *)
Theorem journal_only_permitted_calls (n : string) (t : Tool)
    (args : gmap string JsValue) (repo : Repo) (journal : list GitCall) :
  selectCase toolNames n = Some t ->
  exists added,
    snd (snd (executeTool git n args (repo, journal))) = (journal ++ added)%list
    /\ (List.length added <= 2)%nat
    /\ Forall (Permitted t) added.
Proof.
  intros Hsel.
  destruct (caseBody_journal t args repo journal) as [added [Hj Hrest]].
  exists added. split; [| exact Hrest].
  unfold executeTool, guarded, tryCatch. rewrite Hsel.
  destruct (caseBody git t args (repo, journal)) as [[r|e] st']; exact Hj.
Qed.

End JournalFacts.

Section ToolRuns.

Context {Repo : Type} (git : Engine Repo).

Ltac open_case Hinit :=
  unfold executeTool;
  match goal with
  | |- context [selectCase toolNames ?n] =>
      let t := eval vm_compute in (selectCase toolNames n) in
      change (selectCase toolNames n) with t
  end;
  unfold guarded, tryCatch; cbn [caseBody actionName]; unfold bind at 1;
  rewrite (createGitInstance_ok git _ Hinit).

Lemma append_nil_r (a : string) : a +:+ "" = a.
Proof.
  induction a as [|x a IH]; [reflexivity |].
  rewrite append_cons. now rewrite IH.
Qed.

Lemma validateBranchName_truthy (v : JsValue) (r : string) :
  validateBranchName v = Normal r -> truthy v = true.
Proof.
  unfold validateBranchName. destruct (truthy v); [reflexivity | discriminate].
Qed.

Lemma validateBranchNameIfGiven_given (v : JsValue) (r : string)
    (st : @State Repo) :
  validateBranchName v = Normal r ->
  validateBranchNameIfGiven v st = (Normal (JStr r), st)
  /\ truthy (JStr r) = true.
Proof.
  intros H. unfold validateBranchNameIfGiven.
  rewrite (validateBranchName_truthy v r H). unfold bind, lift, ret.
  rewrite H. split; [reflexivity |].
  destruct (validateBranchName_clean v r H) as [Hne _].
  cbn [truthy]. now rewrite (eqb_empty_false r Hne).
Qed.

Lemma validateBranchNameIfGiven_absent (v : JsValue) (st : @State Repo) :
  truthy v = false -> validateBranchNameIfGiven v st = (Normal JUndefined, st).
Proof. intros H. unfold validateBranchNameIfGiven. now rewrite H. Qed.

Lemma mapArray_accepted (items : list JsValue) :
  Forall (fun f => ~ Offending f) items ->
  mapArray checkFile items = Normal items.
Proof.
  induction 1 as [|f items Hf _ IH]; [reflexivity |].
  cbn [mapArray]. now rewrite (checkFile_accepted f Hf), IH.
Qed.

(** X10.  push_changes and pull_changes validate nothing: with a branch
    argument that is truthy, the remote (or "origin" when it is undefined)
    and the branch are handed to the primitive exactly as received,
    whatever they hold, and the repository is the one that call leaves.
    When both are strings the success text is the fixed prefix followed by
    "<remote>/<branch>". *)
Theorem push_pull_forward_unvalidated (args : gmap string JsValue)
    (repo : Repo) (journal : list GitCall) :
  simpleGit git = None ->
  truthy (prop args "branch") = true ->
  let remote := match prop args "remote" with
                | JUndefined => JStr "origin"
                | v => v
                end in
  let b := prop args "branch" in
  (snd (executeTool git "push_changes" args (repo, journal))
     = (snd (run git (push [remote; b]) repo),
        (journal ++ [push [remote; b]])%list)
   /\ snd (executeTool git "pull_changes" args (repo, journal))
     = (snd (run git (pull [remote; b]) repo),
        (journal ++ [pull [remote; b]])%list))
  /\ (forall remoteName branchName,
        remote = JStr remoteName -> b = JStr branchName ->
        executeTool git "push_changes" args (repo, journal)
          = match run git (push [remote; b]) repo with
            | (Resolved _, repo1) =>
                (Normal (success ("Changes pushed to " +:+ remoteName
                                  +:+ "/" +:+ branchName)),
                 (repo1, (journal ++ [push [remote; b]])%list))
            | (Rejected e, repo1) =>
                (Normal (failure ("Push error: " +:+ describe e)),
                 (repo1, (journal ++ [push [remote; b]])%list))
            end
        /\ executeTool git "pull_changes" args (repo, journal)
          = match run git (pull [remote; b]) repo with
            | (Resolved _, repo1) =>
                (Normal (success ("Changes pulled from " +:+ remoteName
                                  +:+ "/" +:+ branchName)),
                 (repo1, (journal ++ [pull [remote; b]])%list))
            | (Rejected e, repo1) =>
                (Normal (failure ("Pull error: " +:+ describe e)),
                 (repo1, (journal ++ [pull [remote; b]])%list))
            end).
Proof.
  intros Hinit Hb remote b.
  assert (Hpush : executeTool git "push_changes" args (repo, journal)
    = match run git (push [remote; b]) repo with
      | (Resolved _, repo1) =>
          (Normal (success ("Changes pushed to " +:+ toString remote
                            +:+ "/" +:+ toString b)),
           (repo1, (journal ++ [push [remote; b]])%list))
      | (Rejected e, repo1) =>
          (Normal (failure ("Push error: " +:+ describe e)),
           (repo1, (journal ++ [push [remote; b]])%list))
      end).
  { open_case Hinit. rewrite Hb. fold remote b. unfold bind, ret, await.
    destruct (run git (push [remote; b]) repo) as [[payload|e] repo1];
      reflexivity. }
  assert (Hpull : executeTool git "pull_changes" args (repo, journal)
    = match run git (pull [remote; b]) repo with
      | (Resolved _, repo1) =>
          (Normal (success ("Changes pulled from " +:+ toString remote
                            +:+ "/" +:+ toString b)),
           (repo1, (journal ++ [pull [remote; b]])%list))
      | (Rejected e, repo1) =>
          (Normal (failure ("Pull error: " +:+ describe e)),
           (repo1, (journal ++ [pull [remote; b]])%list))
      end).
  { open_case Hinit. rewrite Hb. fold remote b. unfold bind, ret, await.
    destruct (run git (pull [remote; b]) repo) as [[payload|e] repo1];
      reflexivity. }
  split; [split |].
  - rewrite Hpush.
    destruct (run git (push [remote; b]) repo) as [[payload|e] repo1];
      reflexivity.
  - rewrite Hpull.
    destruct (run git (pull [remote; b]) repo) as [[payload|e] repo1];
      reflexivity.
  - intros remoteName branchName Hr Hbr. rewrite Hpush, Hpull, Hr, Hbr.
    split; reflexivity.
Qed.

(** X11.  pull_changes without a branch calls the pull primitive with no
    argument at all, whatever the remote argument is; a remote that is a
    string (or absent, then "origin") only shows in the success text
    "Changes pulled from <remote>". *)
Theorem pull_without_branch_ignores_remote (args : gmap string JsValue)
    (repo : Repo) (journal : list GitCall) :
  simpleGit git = None ->
  truthy (prop args "branch") = false ->
  snd (executeTool git "pull_changes" args (repo, journal))
    = (snd (run git (pull []) repo), (journal ++ [pull []])%list)
  /\ (forall remoteName,
        (prop args "remote" = JUndefined /\ remoteName = "origin")
        \/ prop args "remote" = JStr remoteName ->
        executeTool git "pull_changes" args (repo, journal)
          = match run git (pull []) repo with
            | (Resolved _, repo1) =>
                (Normal (success ("Changes pulled from " +:+ remoteName)),
                 (repo1, (journal ++ [pull []])%list))
            | (Rejected e, repo1) =>
                (Normal (failure ("Pull error: " +:+ describe e)),
                 (repo1, (journal ++ [pull []])%list))
            end).
Proof.
  intros Hinit Hb.
  assert (Hpull : executeTool git "pull_changes" args (repo, journal)
    = match run git (pull []) repo with
      | (Resolved _, repo1) =>
          (Normal (success ("Changes pulled from "
                            +:+ toString match prop args "remote" with
                                         | JUndefined => JStr "origin"
                                         | v => v
                                         end)),
           (repo1, (journal ++ [pull []])%list))
      | (Rejected e, repo1) =>
          (Normal (failure ("Pull error: " +:+ describe e)),
           (repo1, (journal ++ [pull []])%list))
      end).
  { open_case Hinit. rewrite Hb. unfold bind, ret, await.
    destruct (run git (pull []) repo) as [[payload|e] repo1];
      [| reflexivity].
    now rewrite append_nil_r. }
  split.
  - rewrite Hpull.
    destruct (run git (pull []) repo) as [[payload|e] repo1]; reflexivity.
  - intros remoteName [[Hr ->] | Hr]; rewrite Hpull, Hr; reflexivity.
Qed.

(** C6 (as amended).  push_changes calls push(remote, branch), the remote
    being "origin" when absent, when a branch is given, and push() with no
    argument when no branch is given; on success the text is "Changes
    pushed to <remote>" without a branch and "Changes pushed to
    <remote>/<branch>" with one. *)
Theorem push_changes_runs (args : gmap string JsValue) (remoteName : string)
    (repo : Repo) (journal : list GitCall) :
  simpleGit git = None ->
  (prop args "remote" = JUndefined /\ remoteName = "origin")
  \/ prop args "remote" = JStr remoteName ->
  (truthy (prop args "branch") = false ->
   executeTool git "push_changes" args (repo, journal)
   = match run git (push []) repo with
     | (Resolved _, repo1) =>
         (Normal (success ("Changes pushed to " +:+ remoteName)),
          (repo1, (journal ++ [push []])%list))
     | (Rejected e, repo1) =>
         (Normal (failure ("Push error: " +:+ describe e)),
          (repo1, (journal ++ [push []])%list))
     end)
  /\ (forall branchName,
        prop args "branch" = JStr branchName -> branchName <> "" ->
        executeTool git "push_changes" args (repo, journal)
        = match run git (push [JStr remoteName; JStr branchName]) repo with
          | (Resolved _, repo1) =>
              (Normal (success ("Changes pushed to " +:+ remoteName
                                +:+ "/" +:+ branchName)),
               (repo1,
                (journal ++ [push [JStr remoteName; JStr branchName]])%list))
          | (Rejected e, repo1) =>
              (Normal (failure ("Push error: " +:+ describe e)),
               (repo1,
                (journal ++ [push [JStr remoteName; JStr branchName]])%list))
          end).
Proof.
  intros Hinit Hremote.
  assert (Hr : match prop args "remote" with
               | JUndefined => JStr "origin"
               | v => v
               end = JStr remoteName).
  { destruct Hremote as [[-> ->] | ->]; reflexivity. }
  split.
  - intros Hb. open_case Hinit. rewrite Hb, Hr. unfold bind, ret, await.
    destruct (run git (push []) repo) as [[payload|e] repo1]; [| reflexivity].
    cbn [toString]. now rewrite append_nil_r.
  - intros branchName Hbranch Hne. open_case Hinit. rewrite Hbranch, Hr.
    cbn [truthy]. rewrite (eqb_empty_false branchName Hne). cbn [negb].
    unfold bind, ret, await.
    destruct (run git (push [JStr remoteName; JStr branchName]) repo)
      as [[payload|e] repo1]; reflexivity.
Qed.

(** X12.  merge_branch with a target is a checkout of the (trimmed) target
    followed by a merge of the (trimmed) source, and is not atomic: when the
    checkout is rejected the merge is not attempted; when the checkout
    resolves and the merge is rejected the result is a failure, yet the
    repository is the one the two calls left, the checkout is not undone.
    Without a target only the merge is made, "into 'current branch'". *)
Theorem merge_branch_checkout_then_merge (args : gmap string JsValue)
    (source : string) (repo : Repo) (journal : list GitCall) :
  simpleGit git = None ->
  validateBranchName (prop args "sourceBranch") = Normal source ->
  (forall target,
     validateBranchName (prop args "targetBranch") = Normal target ->
     executeTool git "merge_branch" args (repo, journal)
     = match run git (checkout target) repo with
       | (Rejected e, repo1) =>
           (Normal (failure ("Merge error: " +:+ describe e)),
            (repo1, (journal ++ [checkout target])%list))
       | (Resolved _, repo1) =>
           match run git (merge [source]) repo1 with
           | (Resolved _, repo2) =>
               (Normal (success ("Merged '" +:+ source +:+ "' into '"
                                 +:+ target +:+ "'")),
                (repo2, (journal ++ [checkout target; merge [source]])%list))
           | (Rejected e, repo2) =>
               (Normal (failure ("Merge error: " +:+ describe e)),
                (repo2, (journal ++ [checkout target; merge [source]])%list))
           end
       end)
  /\ (truthy (prop args "targetBranch") = false ->
      executeTool git "merge_branch" args (repo, journal)
      = match run git (merge [source]) repo with
        | (Resolved _, repo1) =>
            (Normal (success ("Merged '" +:+ source
                              +:+ "' into 'current branch'")),
             (repo1, (journal ++ [merge [source]])%list))
        | (Rejected e, repo1) =>
            (Normal (failure ("Merge error: " +:+ describe e)),
             (repo1, (journal ++ [merge [source]])%list))
        end).
Proof.
  intros Hinit Hsrc. split.
  - intros target Htgt. open_case Hinit. unfold orElse.
    unfold bind at 1, lift at 1. rewrite Hsrc. unfold bind at 1.
    destruct (validateBranchNameIfGiven_given _ _ (repo, journal) Htgt)
      as [-> ->].
    cbn [toString orElse]. unfold bind, ret, await.
    destruct (run git (checkout target) repo) as [[p1|e1] repo1];
      [| reflexivity].
    rewrite <- app_assoc. cbn [app].
    destruct (run git (merge [source]) repo1) as [[p2|e2] repo2]; reflexivity.
  - intros Hno. open_case Hinit.
    unfold bind at 1, lift at 1. rewrite Hsrc. unfold bind at 1.
    rewrite (validateBranchNameIfGiven_absent _ (repo, journal) Hno).
    cbn [truthy orElse toString]. unfold bind, ret, await.
    destruct (run git (merge [source]) repo) as [[p2|e2] repo2]; reflexivity.
Qed.

(** X13.  commit_changes with a non-empty files array whose entries all
    pass the per-file check stages exactly those entries, unchanged and in
    order, and then commits with the validated message; a rejected staging
    ends the run before the commit. *)
Theorem commit_stages_listed_files (args : gmap string JsValue) (m : string)
    (first : JsValue) (others : list JsValue) (repo : Repo)
    (journal : list GitCall) :
  simpleGit git = None ->
  validateCommitMessage (prop args "message") = Normal m ->
  prop args "files" = JArr (first :: others) ->
  Forall (fun f => ~ Offending f) (first :: others) ->
  executeTool git "commit_changes" args (repo, journal)
  = match run git (add (JArr (first :: others))) repo with
    | (Rejected e, repo1) =>
        (Normal (failure ("Commit error: " +:+ describe e)),
         (repo1, (journal ++ [add (JArr (first :: others))])%list))
    | (Resolved _, repo1) =>
        match run git (commit m) repo1 with
        | (Resolved id, repo2) =>
            (Normal (success ("Changes committed: " +:+ id)),
             (repo2, (journal ++ [add (JArr (first :: others)); commit m])%list))
        | (Rejected e, repo2) =>
            (Normal (failure ("Commit error: " +:+ describe e)),
             (repo2, (journal ++ [add (JArr (first :: others)); commit m])%list))
        end
    end.
Proof.
  intros Hinit Hmsg Hfiles Hok. open_case Hinit.
  unfold bind at 1, lift at 1. rewrite Hmsg, Hfiles.
  change (truthy (JArr (first :: others))
          && lengthPositive (JArr (first :: others))) with true.
  cbn iota. cbn [filesMap]. rewrite (mapArray_accepted _ Hok).
  unfold bind, lift, ret, await.
  destruct (run git (add (JArr (first :: others))) repo) as [[p1|e1] repo1];
    [| reflexivity].
  rewrite <- app_assoc. cbn [app].
  destruct (run git (commit m) repo1) as [[id|e2] repo2]; reflexivity.
Qed.

(** X14.  create_branch hands the trimmed names to the primitive: without
    a source branch it is checkoutLocalBranch(name); with one it is
    checkoutBranch(name, source), and the success text is the same text
    followed by " from '<source>'". *)
Theorem create_branch_runs (args : gmap string JsValue) (b : string)
    (repo : Repo) (journal : list GitCall) :
  simpleGit git = None ->
  validateBranchName (prop args "branchName") = Normal b ->
  (truthy (prop args "fromBranch") = false ->
   executeTool git "create_branch" args (repo, journal)
   = match run git (checkoutLocalBranch b) repo with
     | (Resolved _, repo1) =>
         (Normal (success ("Branch '" +:+ b +:+ "' created successfully")),
          (repo1, (journal ++ [checkoutLocalBranch b])%list))
     | (Rejected e, repo1) =>
         (Normal (failure ("Create branch error: " +:+ describe e)),
          (repo1, (journal ++ [checkoutLocalBranch b])%list))
     end)
  /\ (forall f,
        validateBranchName (prop args "fromBranch") = Normal f ->
        executeTool git "create_branch" args (repo, journal)
        = match run git (checkoutBranch b f) repo with
          | (Resolved _, repo1) =>
              (Normal (success (("Branch '" +:+ b +:+ "' created successfully")
                                +:+ " from '" +:+ f +:+ "'")),
               (repo1, (journal ++ [checkoutBranch b f])%list))
          | (Rejected e, repo1) =>
              (Normal (failure ("Create branch error: " +:+ describe e)),
               (repo1, (journal ++ [checkoutBranch b f])%list))
          end).
Proof.
  intros Hinit Hname. split.
  - intros Hno. open_case Hinit.
    unfold bind at 1, lift at 1. rewrite Hname. unfold bind at 1.
    rewrite (validateBranchNameIfGiven_absent _ (repo, journal) Hno).
    cbn [truthy]. unfold bind, ret, await.
    destruct (run git (checkoutLocalBranch b) repo) as [[p|e] repo1];
      reflexivity.
  - intros f Hfrom. open_case Hinit.
    unfold bind at 1, lift at 1. rewrite Hname. unfold bind at 1.
    destruct (validateBranchNameIfGiven_given _ _ (repo, journal) Hfrom)
      as [-> ->].
    cbn [toString]. unfold bind, ret, await.
    destruct (run git (checkoutBranch b f) repo) as [[p|e] repo1];
      [| reflexivity].
    rewrite !append_assoc. reflexivity.
Qed.

(** X15.  A tools/call request without [arguments] is dispatched with the
    empty bag.  On a handle that binds and whose primitives all resolve, it
    succeeds exactly for the tools whose registry entry requires no
    argument. *)
Theorem call_without_arguments (d : Registry.ToolDescriptor) (st : State) :
  In d Registry.tools ->
  simpleGit git = None ->
  (forall c repo, exists payload repo', run git c repo = (Resolved payload, repo')) ->
  exists r st',
    callToolHandler git (Registry.name d) None st = (Normal r, st')
    /\ (isError r = false <-> Registry.requiredOf d = []).
Proof.
  intros Hd Hinit Hres. destruct st as [repo journal].
  unfold callToolHandler. cbn [default].
  assert (Hundef : forall key, prop (∅ : gmap string JsValue) key = JUndefined).
  { intros key. unfold prop. now rewrite lookup_empty. }
  assert (Hrequired : forall (t : Tool),
            selectCase toolNames (Registry.name d) = Some t ->
            validationRejects t ∅ = true ->
            Registry.requiredOf d <> [] ->
            exists r st',
              executeTool git (Registry.name d) ∅ (repo, journal) = (Normal r, st')
              /\ (isError r = false <-> Registry.requiredOf d = [])).
  { intros t Hsel Hrej Hreq.
    destruct (rejected_body_throws git t ∅ (repo, journal) Hrej) as [e Hbody].
    eexists _, _. split;
      [exact (executeTool_of_throw git _ _ _ _ _ _ Hsel Hbody) |].
    cbn [isError failure]. split; [discriminate | intros E; now destruct Hreq]. }
  cbn [Registry.tools In] in Hd.
  repeat (destruct Hd as [<- | Hd]; [
    first
      [ eapply Hrequired; [reflexivity | reflexivity | discriminate]
      | open_case Hinit; rewrite ?Hundef; cbn [truthy];
        unfold bind, ret, await;
        match goal with
        | |- context [run git ?c repo] =>
            destruct (Hres c repo) as [payload [repo' ->]]
        end;
        eexists _, _; split; [reflexivity |];
        split; reflexivity ] |]).
  destruct Hd.
Qed.

(** X16.  An optional branch argument that is present but falsy (the empty
    string, null, false, 0) is treated as absent: it is not validated, and
    the run is the one of the bag without it. *)
Theorem falsy_optional_argument_is_absent (n key : string) (v : JsValue)
    (args : gmap string JsValue) (st : State) :
  In (n, key) [ ("create_branch", "fromBranch");
                ("merge_branch", "targetBranch");
                ("create_worktree", "branch");
                ("push_changes", "branch");
                ("pull_changes", "branch") ] ->
  truthy v = false ->
  executeTool git n (<[key := v]> args) st
    = executeTool git n (delete key args) st.
Proof.
  intros Hin Hv. cbn [In] in Hin.
  repeat (destruct Hin as [[= <- <-] | Hin]; [
    unfold executeTool;
    match goal with
    | |- context [selectCase toolNames ?name] =>
        let t := eval vm_compute in (selectCase toolNames name) in
        change (selectCase toolNames name) with t
    end;
    cbn [caseBody];
    rewrite ?prop_insert, ?prop_delete;
    rewrite ?prop_insert_other, ?prop_delete_other by discriminate;
    unfold validateBranchNameIfGiven; rewrite ?Hv; reflexivity |]).
  destruct Hin.
Qed.

(** X17.  commit_changes does not reject a files argument that is not a
    list: whenever the value is falsy or has no positive length (null,
    false, a number, the empty string, the empty array), everything is
    staged, exactly as when the argument is absent. *)
Theorem commit_files_without_length_stage_all (v : JsValue)
    (args : gmap string JsValue) (st : State) :
  truthy v && lengthPositive v = false ->
  executeTool git "commit_changes" (<["files" := v]> args) st
    = executeTool git "commit_changes" (delete "files" args) st.
Proof.
  intros Hv. unfold executeTool.
  change (selectCase toolNames "commit_changes") with (Some commit_changes).
  cbn [caseBody].
  rewrite prop_insert, prop_delete.
  rewrite prop_insert_other, prop_delete_other by discriminate.
  rewrite Hv. reflexivity.
Qed.

End ToolRuns.

(** ** Runs that instantiate the properties above *)

Lemma required_arguments_enforced_witness :
  exists txt,
    executeTool mockGit "create_branch"
      (<["fromBranch" := JStr "main"]> noArgs) (0, [])
    = (Normal (failure txt), (0, [])).
Proof.
  apply (required_arguments_enforced mockGit
           (nth 1 Registry.tools
                (Registry.Build_ToolDescriptor "" ""
                   (Registry.Build_InputSchema "" [] None)))
           "branchName" (<["fromBranch" := JStr "main"]> noArgs) (0, [])).
  - right. left. reflexivity.
  - left. reflexivity.
  - intros s H. vm_compute in H. discriminate H.
Defined.

Lemma undeclared_arguments_ignored_witness :
  executeTool mockGit "push_changes"
    (<["remote" := JStr "upstream"]> (<["force" := JBool true]> noArgs)) (0, [])
  = executeTool mockGit "push_changes"
      (<["remote" := JStr "upstream"]> noArgs) (0, []).
Proof.
  apply (undeclared_arguments_ignored mockGit
           (nth 9 Registry.tools
                (Registry.Build_ToolDescriptor "" ""
                   (Registry.Build_InputSchema "" [] None)))
           (<["remote" := JStr "upstream"]> (<["force" := JBool true]> noArgs))
           (<["remote" := JStr "upstream"]> noArgs) (0, [])).
  - do 9 right. left. reflexivity.
  - intros key [<- | [<- | []]]; reflexivity.
Defined.

Lemma binding_failure_reported_witness :
  executeTool unboundGit "create_branch"
    (<["branchName" := JStr "a;b"]> noArgs) (0, [])
  = (Normal (failure "Create branch error: Failed to initialize git repository at /missing: Cannot use simple-git on a directory that does not exist"),
     (0, [])).
Proof.
  apply (binding_failure_reported unboundGit "create_branch" create_branch
           (<["branchName" := JStr "a;b"]> noArgs) (0, [])
           "Cannot use simple-git on a directory that does not exist");
    reflexivity.
Defined.

Lemma journal_only_permitted_calls_witness :
  exists added,
    snd (snd (executeTool mockGit "merge_branch"
                (<["sourceBranch" := JStr " feature "]>
                   (<["targetBranch" := JStr "main"]> noArgs)) (0, [])))
    = ([] ++ added)%list
    /\ (List.length added <= 2)%nat
    /\ Forall (Permitted merge_branch) added.
Proof.
  apply (journal_only_permitted_calls mockGit "merge_branch" merge_branch
           (<["sourceBranch" := JStr " feature "]>
              (<["targetBranch" := JStr "main"]> noArgs)) 0 []).
  reflexivity.
Defined.

Lemma push_pull_forward_unvalidated_witness :
  executeTool mockGit "push_changes"
    (<["branch" := JStr "x;rm -rf /"]> noArgs) (0, [])
  = (Normal (success "Changes pushed to origin/x;rm -rf /"),
     (1, [push [JStr "origin"; JStr "x;rm -rf /"]]))
  /\ executeTool mockGit "pull_changes"
    (<["branch" := JStr "x;rm -rf /"]> noArgs) (0, [])
  = (Normal (success "Changes pulled from origin/x;rm -rf /"),
     (1, [pull [JStr "origin"; JStr "x;rm -rf /"]])).
Proof.
  destruct (push_pull_forward_unvalidated mockGit
              (<["branch" := JStr "x;rm -rf /"]> noArgs) 0 [])
    as [_ Htext]; [reflexivity | reflexivity |].
  destruct (Htext "origin" "x;rm -rf /") as [Hpush Hpull];
    [reflexivity | reflexivity |].
  split.
  - etransitivity; [exact Hpush | reflexivity].
  - etransitivity; [exact Hpull | reflexivity].
Defined.

Lemma pull_without_branch_ignores_remote_witness :
  executeTool mockGit "pull_changes" (<["remote" := JStr "upstream"]> noArgs)
    (0, [])
  = (Normal (success "Changes pulled from upstream"), (1, [pull []])).
Proof.
  destruct (pull_without_branch_ignores_remote mockGit
              (<["remote" := JStr "upstream"]> noArgs) 0 [])
    as [_ Htext]; [reflexivity | reflexivity |].
  etransitivity; [apply (Htext "upstream"); right; reflexivity | reflexivity].
Defined.

Lemma push_changes_runs_witness :
  executeTool mockGit "push_changes" noArgs (0, [])
  = (Normal (success "Changes pushed to origin"), (1, [push []]))
  /\ executeTool mockGit "push_changes"
       (<["remote" := JStr "upstream"]> (<["branch" := JStr "feature"]> noArgs))
       (0, [])
  = (Normal (success "Changes pushed to upstream/feature"),
     (1, [push [JStr "upstream"; JStr "feature"]])).
Proof.
  split.
  - destruct (push_changes_runs mockGit noArgs "origin" 0 []) as [Hnone _];
      [reflexivity | left; split; reflexivity |].
    etransitivity; [apply Hnone; reflexivity | reflexivity].
  - destruct (push_changes_runs mockGit
                (<["remote" := JStr "upstream"]>
                   (<["branch" := JStr "feature"]> noArgs))
                "upstream" 0 []) as [_ Hwith];
      [reflexivity | right; reflexivity |].
    etransitivity;
      [apply (Hwith "feature"); [reflexivity | discriminate] | reflexivity].
Defined.

Lemma merge_branch_checkout_then_merge_witness :
  executeTool conflictGit "merge_branch"
    (<["sourceBranch" := JStr " feature "]>
       (<["targetBranch" := JStr "main"]> noArgs)) (0, [])
  = (Normal (failure "Merge error: CONFLICTS: merge conflict"),
     (2, [checkout "main"; merge ["feature"]])).
Proof.
  destruct (merge_branch_checkout_then_merge conflictGit
              (<["sourceBranch" := JStr " feature "]>
                 (<["targetBranch" := JStr "main"]> noArgs))
              "feature" 0 []) as [Hwith _]; [reflexivity | reflexivity |].
  etransitivity; [apply (Hwith "main"); reflexivity | reflexivity].
Defined.

Lemma commit_stages_listed_files_witness :
  executeTool mockGit "commit_changes"
    (<["message" := JStr "Test commit"]>
       (<["files" := JArr [JStr "file1.txt"; JStr "file2.txt"]]> noArgs))
    (0, [])
  = (Normal (success "Changes committed: abc123"),
     (2, [add (JArr [JStr "file1.txt"; JStr "file2.txt"]);
          commit "Test commit"])).
Proof.
  etransitivity.
  - apply (commit_stages_listed_files mockGit
             (<["message" := JStr "Test commit"]>
                (<["files" := JArr [JStr "file1.txt"; JStr "file2.txt"]]> noArgs))
             "Test commit" (JStr "file1.txt") [JStr "file2.txt"] 0 []);
      [reflexivity | reflexivity | reflexivity |].
    repeat (apply List.Forall_cons;
            [apply accepted_not_Offending; reflexivity |]).
    apply List.Forall_nil.
  - reflexivity.
Defined.

Lemma create_branch_runs_witness :
  executeTool mockGit "create_branch"
    (<["branchName" := JStr "  feature  "]>
       (<["fromBranch" := JStr "main"]> noArgs)) (0, [])
  = (Normal (success "Branch 'feature' created successfully from 'main'"),
     (1, [checkoutBranch "feature" "main"])).
Proof.
  destruct (create_branch_runs mockGit
              (<["branchName" := JStr "  feature  "]>
                 (<["fromBranch" := JStr "main"]> noArgs))
              "feature" 0 []) as [_ Hfrom]; [reflexivity | reflexivity |].
  etransitivity; [apply (Hfrom "main"); reflexivity | reflexivity].
Defined.

Lemma call_without_arguments_witness :
  exists r st',
    callToolHandler mockGit "list_branches" None (0, []) = (Normal r, st')
    /\ (isError r = false
        <-> Registry.requiredOf
              (nth 3 Registry.tools
                   (Registry.Build_ToolDescriptor "" ""
                      (Registry.Build_InputSchema "" [] None))) = []).
Proof.
  apply (call_without_arguments mockGit
           (nth 3 Registry.tools
                (Registry.Build_ToolDescriptor "" ""
                   (Registry.Build_InputSchema "" [] None))) (0, [])).
  - do 3 right. left. reflexivity.
  - reflexivity.
  - intros c repo. eexists _, _. reflexivity.
Defined.

Lemma falsy_optional_argument_is_absent_witness :
  executeTool mockGit "create_branch"
    (<["fromBranch" := JStr ""]> (<["branchName" := JStr "feature"]> noArgs))
    (0, [])
  = executeTool mockGit "create_branch"
      (delete "fromBranch" (<["branchName" := JStr "feature"]> noArgs)) (0, []).
Proof.
  apply (falsy_optional_argument_is_absent mockGit "create_branch" "fromBranch"
           (JStr "") (<["branchName" := JStr "feature"]> noArgs) (0, []));
    [left; reflexivity | reflexivity].
Defined.

Lemma commit_files_without_length_stage_all_witness :
  executeTool mockGit "commit_changes"
    (<["files" := JNum 42]> (<["message" := JStr "Test commit"]> noArgs)) (0, [])
  = executeTool mockGit "commit_changes"
      (delete "files" (<["message" := JStr "Test commit"]> noArgs)) (0, []).
Proof.
  apply (commit_files_without_length_stage_all mockGit (JNum 42)
           (<["message" := JStr "Test commit"]> noArgs) (0, [])).
  reflexivity.
Defined.
